(** * VacationSync: activity proposal / acceptance views and live refresh

    A shallow embedding of the client code of the trip page and of the
    activity-discovery page (src/activities.tsx), together with the
    properties the design specification states about them.

    Layout: the data model and the embedded functions come first, grouped in
    modules that follow the source (JS built-ins, the shared schema, the
    query cache, the trip page, the discovery page, the store of the
    specification, a session of one member against that store); the lemmas
    and theorems follow. *)

From stdpp Require Import base option list strings pretty gmap fin_maps.
From Stdlib Require Import ZArith Lia Ascii String.

Open Scope Z_scope.

#[local] Set Warnings "-register-all".

(** ** Shared schema (the fields the client code reads) *)

Module Schema.

(** [ActivityWithDetails] as the trip page consumes it.  [isAccepted] is the
    caller's own acceptance flag computed by the server; a JS field that can
    be absent, hence [option bool]. *)
Record ActivityWithDetails := mkActivity {
  act_id : Z;
  act_name : string;
  act_category : string;
  act_startTime : string;
  act_isAccepted : option bool
}.

Record User := mkUser { user_id : string }.

Record TripWithDetails := mkTrip { trip_id : Z }.

Definition with_isAccepted (flag : option bool) (a : ActivityWithDetails)
  : ActivityWithDetails :=
  mkActivity (act_id a) (act_name a) (act_category a) (act_startTime a) flag.

End Schema.

(** ** JavaScript built-ins used by the embedded code *)

Module JS.

(** Truthiness of a possibly absent boolean field ([undefined], [false],
    [true]): only [true] is truthy. *)
Definition truthy_flag (v : option bool) : bool :=
  match v with
  | Some true => true
  | _ => false
  end.

(** [===] on strings. *)
Definition str_eq (a b : string) : bool := bool_decide (a = b).

(** Truthiness of a string: every string but the empty one. *)
Definition truthy_string (s : string) : bool :=
  match s with
  | EmptyString => false
  | String _ _ => true
  end.

(** *** Numbers

    A Number is NaN, an infinity, or a finite double.  A finite double is
    written by a decimal [mant * 10 ^ exp] it is the nearest double of
    (the sign is kept apart, so that [-0] exists); [round_literal] below
    is the only place where decimals are turned into Numbers, and it sends
    the decimals beyond the double range to an infinity. *)
Record decimal := mkDecimal { dec_mant : Z; dec_exp : Z }.

Inductive number :=
| NaN
| Infinity (negative : bool)
| Finite (negative : bool) (d : decimal).

(** The least magnitude that rounds (to nearest, ties to even) to an
    infinity: half-way between the largest double and [2 ^ 1024]. *)
Definition overflow_threshold : Z := 2 ^ 1024 - 2 ^ 970.

Definition overflows (d : decimal) : bool :=
  if 0 <=? dec_exp d
  then overflow_threshold <=? dec_mant d * 10 ^ dec_exp d
  else overflow_threshold * 10 ^ (- dec_exp d) <=? dec_mant d.

Definition round_literal (negative : bool) (d : decimal) : number :=
  if overflows d then Infinity negative else Finite negative d.

Definition number_of_Z (z : Z) : number :=
  round_literal (z <? 0) (mkDecimal (Z.abs z) 0).

(** Whether the double a decimal writes is a zero: the decimal is zero, or
    its magnitude is at most [2 ^ -1075], half the least positive double
    (the tie goes to the even neighbour, which is zero). *)
Definition is_zero (d : decimal) : bool :=
  if 0 <=? dec_exp d then dec_mant d =? 0
  else dec_mant d * 2 ^ 1075 <=? 10 ^ (- dec_exp d).

(** *** Scanning numeric literals

    Strings are sequences of code units below 256. *)
Definition code (c : ascii) : Z := Z.of_nat (nat_of_ascii c).

(** [StrWhiteSpaceChar] restricted to code units below 256: TAB, LF, VT,
    FF, CR, SP and NBSP. *)
Definition is_whitespace (c : ascii) : bool :=
  let n := code c in
  ((9 <=? n) && (n <=? 13)) || (n =? 32) || (n =? 160).

Definition is_digit (c : ascii) : bool :=
  let n := code c in (48 <=? n) && (n <=? 57).

Fixpoint trim_start (s : string) : string :=
  match s with
  | String c r => if is_whitespace c then trim_start r else s
  | EmptyString => EmptyString
  end.

(** The longest run of decimal digits at the start of [s], as the number
    it writes and its length, and the rest of [s]. *)
Fixpoint span_digits (acc : Z) (len : Z) (s : string) : Z * Z * string :=
  match s with
  | String c r =>
      if is_digit c then span_digits (10 * acc + (code c - 48)) (len + 1) r
      else (acc, len, s)
  | EmptyString => (acc, len, s)
  end.

Definition strip_sign (s : string) : bool * string :=
  match s with
  | String "-" r => (true, r)
  | String "+" r => (false, r)
  | _ => (false, s)
  end.

(** [ExponentPart]: [e] or [E], an optional sign and at least one digit;
    [0] when the text at hand is no complete exponent part. *)
Definition exponent_part (s : string) : Z :=
  match s with
  | String c r =>
      if (code c =? 101) || (code c =? 69) then
        let '(neg, r') := strip_sign r in
        let '(e, len, _) := span_digits 0 0 r' in
        if len =? 0 then 0 else if neg then - e else e
      else 0
  | EmptyString => 0
  end.

(** The value of the longest prefix of [s] that is a
    [StrUnsignedDecimalLiteral], [None] when there is none. *)
Definition unsigned_literal (negative : bool) (s : string) : option number :=
  if String.prefix "Infinity" s then Some (Infinity negative)
  else
    let '(i, ilen, r1) := span_digits 0 0 s in
    match r1 with
    | String "." r2 =>
        let '(m, flen, r3) := span_digits i 0 r2 in
        if (ilen =? 0) && (flen =? 0) then None
        else Some (round_literal negative
                     (mkDecimal m (exponent_part r3 - flen)))
    | _ =>
        if ilen =? 0 then None
        else Some (round_literal negative (mkDecimal i (exponent_part r1)))
    end.

(** [parseFloat(string)]. *)
Definition parseFloat (s : string) : number :=
  let '(neg, r) := strip_sign (trim_start s) in
  match unsigned_literal neg r with
  | Some n => n
  | None => NaN
  end.

Definition hex_digit (c : ascii) : option Z :=
  let n := code c in
  if (48 <=? n) && (n <=? 57) then Some (n - 48)
  else if (97 <=? n) && (n <=? 102) then Some (n - 87)
  else if (65 <=? n) && (n <=? 70) then Some (n - 55)
  else None.

Fixpoint span_hex (acc : Z) (len : Z) (s : string) : Z * Z :=
  match s with
  | String c r =>
      match hex_digit c with
      | Some d => span_hex (16 * acc + d) (len + 1) r
      | None => (acc, len)
      end
  | EmptyString => (acc, len)
  end.

(** [parseInt(string)] with the radix left out: radix 16 after a [0x] or
    [0X] prefix, radix 10 otherwise. *)
Definition parseInt (s : string) : number :=
  let '(neg, r) := strip_sign (trim_start s) in
  let '(v, len) :=
    match r with
    | String "0" (String c r') =>
        if (code c =? 120) || (code c =? 88) then span_hex 0 0 r'
        else let '(v, len, _) := span_digits 0 0 r in (v, len)
    | _ => let '(v, len, _) := span_digits 0 0 r in (v, len)
    end in
  if len =? 0 then NaN else round_literal neg (mkDecimal v 0).

(** *** Values and their JSON serialisation

    The text [Date.prototype.toISOString] writes for a time value [t]
    (milliseconds since the epoch, UTC) is kept as [t] itself:
    [VIsoString t] is that string as a value, [JIsoString t] the same
    string in a JSON text. *)

Inductive value :=
| VUndefined
| VNull
| VBool (b : bool)
| VNumber (n : number)
| VString (s : string)
| VIsoString (t : Z)
| VObject (props : list (string * value)).

(** A JSON text, as the tree it parses to. *)
Inductive json :=
| JNull
| JBool (b : bool)
| JNumber (negative : bool) (d : decimal)
| JString (s : string)
| JIsoString (t : Z)
| JObject (members : list (string * json)).

(** [JSON.stringify]: [None] is the [undefined] result.  A Number that is
    not finite is written [null], and a zero is written without its sign
    ([-0] gives the text [0]); a property whose value serialises to
    [undefined] is left out. *)
Fixpoint stringify (v : value) : option json :=
  match v with
  | VUndefined => None
  | VNull => Some JNull
  | VBool b => Some (JBool b)
  | VNumber (Finite neg d) => Some (JNumber (neg && negb (is_zero d)) d)
  | VNumber _ => Some JNull
  | VString s => Some (JString s)
  | VIsoString t => Some (JIsoString t)
  | VObject props =>
      Some (JObject
        ((fix members (ps : list (string * value)) : list (string * json) :=
            match ps with
            | [] => []
            | (k, x) :: ps' =>
                match stringify x with
                | Some j => (k, j) :: members ps'
                | None => members ps'
                end
            end) props))
  end.

(** [JSON.stringify] of an object literal. *)
Definition stringify_object (props : list (string * value)) : json :=
  match stringify (VObject props) with
  | Some j => j
  | None => JNull
  end.

(** Property read on an object literal. *)
Fixpoint prop (k : string) (props : list (string * value)) : value :=
  match props with
  | [] => VUndefined
  | (k', v) :: props' => if str_eq k k' then v else prop k props'
  end.

(** Truthiness of a parsed JSON value. *)
Definition truthy_json (j : json) : bool :=
  match j with
  | JNull => false
  | JBool b => b
  | JNumber _ d => negb (is_zero d)
  | JString s => truthy_string s
  | JIsoString _ => true
  | JObject _ => true
  end.

(** Property read on a JSON object (the first member of that name). *)
Fixpoint member (k : string) (ms : list (string * json)) : option json :=
  match ms with
  | [] => None
  | (k', j) :: ms' => if str_eq k k' then Some j else member k ms'
  end.

Definition get (k : string) (j : json) : option json :=
  match j with
  | JObject ms => member k ms
  | _ => None
  end.

End JS.

(** ** The trip page: the two views (src/activities.tsx, [Trip]) *)

Module TripPage.
Import Schema.

(** The component variables the two view functions close over:
    [activities] is the data of the activities query ([undefined] until
    fetched), [user] comes from [useAuth], [categoryFilter] is component
    state initialised to ["all"]. *)
Record View := mkView {
  activities : option (list ActivityWithDetails);
  user : option User;
  categoryFilter : string
}.

Definition set_categoryFilter (c : string) (v : View) : View :=
  mkView (activities v) (user v) c.

(** [getFilteredActivities]: the group calendar. *)
Definition getFilteredActivities (v : View) : list ActivityWithDetails :=
  match activities v with
  | None => []
  | Some acts =>
      let filteredActivities := acts in
      if JS.str_eq (categoryFilter v) "all" then filteredActivities
      else List.filter
             (fun activity => JS.str_eq (act_category activity) (categoryFilter v))
             filteredActivities
  end.

(** [getMySchedule]: the personal schedule. *)
Definition getMySchedule (v : View) : list ActivityWithDetails :=
  match activities v, user v with
  | Some acts, Some _ =>
      List.filter (fun activity => JS.truthy_flag (act_isAccepted activity)) acts
  | _, _ => []
  end.

End TripPage.

(** ** The query cache of the client

    The parts of the query library (TanStack Query) the trip page relies on:
    keys, key matching, invalidation and the life cycle of a mutation. *)

Module ReactQuery.
Import Schema.

(** Query keys of this code base are arrays of strings. *)
Definition QueryKey := list string.

(** [partialMatchKey(a, b)]: the key [a] of a cached query matches the
    filter key [b] when every index of [b] holds the same string in [a]. *)
Fixpoint partialMatchKey (a b : QueryKey) : bool :=
  match b with
  | [] => true
  | y :: b' =>
      match a with
      | [] => false
      | x :: a' => JS.str_eq x y && partialMatchKey a' b'
      end
  end.

Inductive QueryData :=
| ActivitiesData (acts : list ActivityWithDetails)
| TripData (t : TripWithDetails).

Record Query := mkQuery {
  queryKey : QueryKey;
  data : option QueryData;
  isInvalidated : bool
}.

Definition QueryCache := list Query.

Definition invalidate (q : Query) : Query :=
  mkQuery (queryKey q) (data q) true.

(** [queryClient.invalidateQueries({ queryKey })]: every cached query whose
    key matches the filter is marked stale, which makes the library fetch
    it again. *)
Definition invalidateQueries (filterKey : QueryKey) (c : QueryCache) : QueryCache :=
  map (fun q => if partialMatchKey (queryKey q) filterKey then invalidate q else q) c.

(** The queries an invalidation refetches. *)
Definition matching (filterKey : QueryKey) (c : QueryCache) : QueryCache :=
  List.filter (fun q => partialMatchKey (queryKey q) filterKey) c.

(** The data [useQuery({ queryKey })] returns: that of the query cached
    under exactly this key. *)
Fixpoint getQueryData (k : QueryKey) (c : QueryCache) : option QueryData :=
  match c with
  | [] => None
  | q :: c' => if bool_decide (queryKey q = k) then data q else getQueryData k c'
  end.

(** The result of [mutationFn]'s promise. *)
Inductive settled :=
| Fulfilled (result : option JS.json)
| Rejected (message : string).

End ReactQuery.

(** ** HTTP requests and what the client shows *)

Module Http.

Record Request := mkRequest {
  req_method : string;
  req_url : string;
  req_headers : list (string * string);
  req_credentials : string;
  req_body : option JS.json
}.

(** What [await fetch(...)] gives: a rejection (no response at all), or a
    response with its [ok] flag and its body ([None] when the body is not
    JSON, so that [response.json()] rejects). *)
Inductive FetchResult :=
| NetworkError
| Response (ok : bool) (body : option JS.json).

Record Toast := mkToast {
  toast_title : string;
  toast_description : string;
  toast_variant : option string
}.

End Http.

(** ** The trip page: live channel and mutations (src/activities.tsx, [Trip]) *)

Module TripLive.
Import Schema ReactQuery Http.

Record Location := mkLocation { loc_protocol : string; loc_host : string }.

Inductive ReadyState := CONNECTING | OPEN | CLOSING | CLOSED.

(** The socket of the current run of the effect, with the [user] and the
    [trip] its handlers closed over and the messages sent on it so far
    (oldest first). *)
Record Connection := mkConnection {
  conn_url : string;
  conn_user : User;
  conn_trip : TripWithDetails;
  readyState : ReadyState;
  sent : list JS.json
}.

(** What the page does to the outside, logged oldest first. *)
Inductive Effect :=
| NewWebSocket (url : string)
| SocketSend (payload : JS.json)
| SocketClose
| InvalidateQueries (filterKey : QueryKey)
| Fetch (r : Request)
| ShowToast (t : Toast).

Record Page := mkPage {
  pg_id : string;                 (* the route parameter [id] *)
  pg_location : Location;
  pg_user : option User;
  pg_categoryFilter : string;
  pg_cache : QueryCache;
  pg_socket : option Connection;
  pg_log : list Effect
}.

Definition set_cache (c : QueryCache) (p : Page) : Page :=
  mkPage (pg_id p) (pg_location p) (pg_user p) (pg_categoryFilter p) c
         (pg_socket p) (pg_log p).

Definition set_socket (s : option Connection) (p : Page) : Page :=
  mkPage (pg_id p) (pg_location p) (pg_user p) (pg_categoryFilter p) (pg_cache p)
         s (pg_log p).

Definition log (e : Effect) (p : Page) : Page :=
  mkPage (pg_id p) (pg_location p) (pg_user p) (pg_categoryFilter p) (pg_cache p)
         (pg_socket p) (pg_log p ++ [e]).

(** The keys of the two queries of the page. *)
Definition tripKey (id : string) : QueryKey := ["/api/trips"; id].

Definition activitiesKey (id : string) : QueryKey :=
  ["/api/trips/" +:+ id +:+ "/activities"].

(** The key the message handler of the socket invalidates. *)
Definition liveKey (id : string) : QueryKey := ["/api/trips"; id; "activities"].

Definition trip (p : Page) : option TripWithDetails :=
  match getQueryData (tripKey (pg_id p)) (pg_cache p) with
  | Some (TripData t) => Some t
  | _ => None
  end.

Definition activities (p : Page) : option (list ActivityWithDetails) :=
  match getQueryData (activitiesKey (pg_id p)) (pg_cache p) with
  | Some (ActivitiesData acts) => Some acts
  | _ => None
  end.

(** What the two view functions see of the page. *)
Definition view (p : Page) : TripPage.View :=
  TripPage.mkView (activities p) (pg_user p) (pg_categoryFilter p).

Definition invalidateQueriesOn (k : QueryKey) (p : Page) : Page :=
  log (InvalidateQueries k) (set_cache (invalidateQueries k (pg_cache p)) p).

(** *** The effect that keeps the socket *)

Definition wsUrl (l : Location) : string :=
  (if JS.str_eq (loc_protocol l) "https:" then "wss:" else "ws:")
    +:+ "//" +:+ loc_host l +:+ "/ws".

(** The message [socket.onopen] sends. *)
Definition joinMessage (u : User) (t : TripWithDetails) : JS.json :=
  JS.stringify_object
    [ ("type", JS.VString "join_trip");
      ("userId", JS.VString (user_id u));
      ("tripId", JS.VNumber (JS.number_of_Z (trip_id t))) ].

(** The body of the effect: nothing without a trip and a user, else a new
    socket whose handlers are [onopen] and [onmessage] below. *)
Definition effectBody (p : Page) : Page :=
  match trip p, pg_user p with
  | Some t, Some u =>
      let url := wsUrl (pg_location p) in
      log (NewWebSocket url)
          (set_socket (Some (mkConnection url u t CONNECTING [])) p)
  | _, _ => p
  end.

(** The cleanup the effect returns: [socket.close()]. *)
Definition effectCleanup (p : Page) : Page :=
  match pg_socket p with
  | Some _ => log SocketClose (set_socket None p)
  | None => p
  end.

Definition onopen (c : Connection) (p : Page) : Page :=
  let m := joinMessage (conn_user c) (conn_trip c) in
  log (SocketSend m)
      (set_socket
         (Some (mkConnection (conn_url c) (conn_user c) (conn_trip c) OPEN
                             (sent c ++ [m]))) p).

(** The [type] property of a parsed message, when it is a string. *)
Definition messageType (message : JS.json) : option string :=
  match JS.get "type" message with
  | Some (JS.JString t) => Some t
  | _ => None
  end.

Definition isActivityChange (message : JS.json) : bool :=
  match messageType message with
  | Some t =>
      JS.str_eq t "activity_created"
      || JS.str_eq t "activity_accepted"
      || JS.str_eq t "activity_declined"
  | None => false
  end.

Definition onmessage (message : JS.json) (p : Page) : Page :=
  if isActivityChange message
  then invalidateQueriesOn (liveKey (pg_id p)) p
  else p.

(** *** The two response mutations *)

Record Mutation := mkMutation {
  onMutate : option (Z -> Page -> Page);
  mutationRequest : Z -> Request;
  mutationSettle : FetchResult -> settled;
  onSuccess : Page -> Page;
  onError : Page -> Page
}.

(** [mutation.mutate(variables)] as the library runs it: [onMutate] when
    there is one, then [mutationFn], then [onSuccess] or [onError]. *)
Definition mutate (m : Mutation) (variables : Z) (r : FetchResult) (p : Page) : Page :=
  let p1 := match onMutate m with
            | Some f => f variables p
            | None => p
            end in
  let p2 := log (Fetch (mutationRequest m variables)) p1 in
  match mutationSettle m r with
  | Fulfilled _ => onSuccess m p2
  | Rejected _ => onError m p2
  end.

Definition acceptUrl (activityId : Z) : string :=
  "/api/activities/" +:+ pretty activityId +:+ "/accept".

Definition settleWith (failure : string) (r : FetchResult) : settled :=
  match r with
  | NetworkError => Rejected "Failed to fetch"
  | Response false _ => Rejected failure
  | Response true (Some j) => Fulfilled (Some j)
  | Response true None => Rejected "Unexpected end of JSON input"
  end.

Definition toast (t : Toast) (p : Page) : Page := log (ShowToast t) p.

Definition acceptActivityMutation : Mutation :=
  mkMutation
    None
    (fun activityId => mkRequest "POST" (acceptUrl activityId) [] "include" None)
    (settleWith "Failed to accept activity")
    (fun p =>
       toast (mkToast "Activity accepted!" "Added to your personal calendar" None)
             (invalidateQueriesOn (activitiesKey (pg_id p)) p))
    (fun p =>
       toast (mkToast "Error" "Failed to accept activity" (Some "destructive")) p).

Definition declineActivityMutation : Mutation :=
  mkMutation
    None
    (fun activityId => mkRequest "DELETE" (acceptUrl activityId) [] "include" None)
    (settleWith "Failed to decline activity")
    (fun p =>
       toast (mkToast "Activity declined" "Removed from your calendar" None)
             (invalidateQueriesOn (activitiesKey (pg_id p)) p))
    (fun p =>
       toast (mkToast "Error" "Failed to decline activity" (Some "destructive")) p).

(** *** The page as a machine *)

Inductive Event :=
| EffectRun                       (* mount, or [trip], [user], [id] changed *)
| Unmount
| SocketOpened
| SocketMessage (message : JS.json)
| SocketClosed                    (* the connection dropped *)
| SocketErrored
| Accept (activityId : Z) (r : FetchResult)
| Decline (activityId : Z) (r : FetchResult).

Definition set_readyState (s : ReadyState) (c : Connection) : Connection :=
  mkConnection (conn_url c) (conn_user c) (conn_trip c) s (sent c).

(** One event.  The socket delivers [open] to a connecting socket and
    [message] to an open one; no handler is registered for [close] and
    [error], so they change the socket's own state and nothing else. *)
Definition step (p : Page) (e : Event) : Page :=
  match e with
  | EffectRun => effectBody (effectCleanup p)
  | Unmount => effectCleanup p
  | SocketOpened =>
      match pg_socket p with
      | Some c => match readyState c with
                  | CONNECTING => onopen c p
                  | _ => p
                  end
      | None => p
      end
  | SocketMessage message =>
      match pg_socket p with
      | Some c => match readyState c with
                  | OPEN => onmessage message p
                  | _ => p
                  end
      | None => p
      end
  | SocketClosed =>
      match pg_socket p with
      | Some c => set_socket (Some (set_readyState CLOSED c)) p
      | None => p
      end
  | SocketErrored => p
  | Accept activityId r => mutate acceptActivityMutation activityId r p
  | Decline activityId r => mutate declineActivityMutation activityId r p
  end.

Definition run (p : Page) (es : list Event) : Page := fold_left step es p.

(** The invariant of the socket of the page: it was opened for the user
    and the trip of the page, and what was sent on it is nothing before it
    opened and the join message alone afterwards. *)
Definition socketInvariant (p : Page) : Prop :=
  match pg_socket p with
  | None => True
  | Some c =>
      pg_user p = Some (conn_user c) /\ trip p = Some (conn_trip c)
      /\ match readyState c with
         | CONNECTING => sent c = []
         | OPEN => sent c = [joinMessage (conn_user c) (conn_trip c)]
         | _ => sent c = []
                \/ sent c = [joinMessage (conn_user c) (conn_trip c)]
         end
  end.

(** Whether the request of a response mutation succeeded. *)
Definition succeeded (r : FetchResult) : bool :=
  match r with
  | Response true (Some _) => true
  | _ => false
  end.

(** Modelled from the spec: the change event of section 4.3, with the
    kind written in [type] the way the message handler of the page reads
    it; the server that emits the events is missing from the sources. *)
Inductive ChangeKind := created | accepted | declined | deleted.

(** Modelled from the spec: the [type] string of a change event of each
    kind, after the three strings the message handler compares with. *)
Definition eventType (k : ChangeKind) : string :=
  match k with
  | created => "activity_created"
  | accepted => "activity_accepted"
  | declined => "activity_declined"
  | deleted => "activity_deleted"
  end.

(** Modelled from the spec: the event [{groupId, activityId, changeKind}]
    of section 4.3 as a parsed message. *)
Definition changeEvent (groupId activityId : Z) (k : ChangeKind) : JS.json :=
  JS.stringify_object
    [ ("type", JS.VString (eventType k));
      ("tripId", JS.VNumber (JS.number_of_Z groupId));
      ("activityId", JS.VNumber (JS.number_of_Z activityId)) ].

(** The effects logged since an earlier state of the page. *)
Definition since (before after : Page) : list Effect :=
  drop (List.length (pg_log before)) (pg_log after).

(** Whether a new socket is opened among the effects [es]. *)
Definition opensSocket (es : list Effect) : bool :=
  existsb (fun e => match e with NewWebSocket _ => true | _ => false end) es.

(** Whether [e] fetches the activities list of trip [id] again: an
    invalidation whose filter matches the activities query. *)
Definition refetchesList (id : string) (e : Effect) : bool :=
  match e with
  | InvalidateQueries k => partialMatchKey (activitiesKey id) k
  | _ => false
  end.

Definition refetchesActivities (id : string) (es : list Effect) : bool :=
  existsb (refetchesList id) es.

(** Whether [e] is the message handler applying a change event. *)
Definition appliesEvent (id : string) (e : Effect) : bool :=
  match e with
  | InvalidateQueries k => bool_decide (k = liveKey id)
  | _ => false
  end.

(** Whether, among the effects [es] that follow the opening of a socket,
    the full list is fetched again, and before any change event is
    applied. *)
Fixpoint resyncsFirst (id : string) (es : list Effect) : bool :=
  match es with
  | [] => false
  | e :: es' =>
      if refetchesList id e then true
      else if appliesEvent id e then false
      else resyncsFirst id es'
  end.

(** The reconnect policy of section 4.5 of the specification, on the
    effects logged after a drop: a socket is opened again, and then the
    full list is fetched again before any change event is applied. *)
Fixpoint resyncPolicy (id : string) (es : list Effect) : bool :=
  match es with
  | [] => false
  | NewWebSocket _ :: es' => resyncsFirst id es'
  | _ :: es' => resyncPolicy id es'
  end.

Definition isMessage (e : Event) : bool :=
  match e with
  | SocketMessage _ => true
  | _ => false
  end.

Definition isEffectRun (e : Event) : bool :=
  match e with
  | EffectRun => true
  | _ => false
  end.

(** Whether [e] is an accept or a decline whose request succeeded. *)
Definition isSuccess (e : Event) : bool :=
  match e with
  | Accept _ r | Decline _ r => succeeded r
  | _ => false
  end.

(** Whether the effect has what it needs to open a socket. *)
Definition ready (p : Page) : bool :=
  match trip p, pg_user p with
  | Some _, Some _ => true
  | _, _ => false
  end.

End TripLive.

(** ** The discovery page: proposing an activity to the group
    (src/activities.tsx, [Activities]) *)

Module Discover.
Import Http.

(** A discovered activity (the [Activity] interface of the page). *)
Record Activity := mkActivity {
  id : string;
  name : string;
  description : string;
  location : string;
  category : string;
  price : string;
  duration : string;
  rating : JS.number;
  bookingUrl : string;
  provider : option string
}.

(** What the handler does to the outside, in order. *)
Inductive Effect :=
| Fetch (r : Request)
| ShowToast (t : Toast)
| RedirectAfter (ms : Z) (href : string).

(** What the [catch] clause can receive. *)
Inductive Thrown :=
| FetchRejected                   (* [fetch] rejected: no response *)
| BodyNotJson                     (* [response.json()] rejected *)
| NullBody                        (* reading [message] of [null] *)
| ErrorOf (message : JS.json).    (* [new Error(message)] *)

Definition msPerMinute : Z := 60000.
Definition msPerHour : Z := 3600000.
Definition msPerDay : Z := 86400000.

(** [Day(t)]: the number of the UTC day the time value [t] falls in. *)
Definition Day (t : Z) : Z := t / msPerDay.

(** [now.toISOString().split('T')[0]]: the date part of the ISO text of
    [now], kept as the number of the UTC day it names. *)
Definition isoDatePart (now : Z) : Z := Day now.

(** The text [`${startDate}T${startTime}`]: a date and a time of day
    without a zone. *)
Record DateTimeText := mkDateTimeText {
  dt_day : Z;
  dt_hours : Z;
  dt_minutes : Z
}.

Section WithEnvironment.

(** [LocalTZA(t, isUTC)]: the offset of local time from UTC, in
    milliseconds; [t] is a UTC time value when [isUTC] holds and a local
    time value otherwise. *)
Variable LocalTZA : Z -> bool -> Z.

(** [isUnauthorizedError] of [@/lib/authUtils]. *)
Variable isUnauthorizedError : Thrown -> bool.

(** [LocalTime(t)]: the local time value of the instant [t]; its day is
    the calendar date the clock of the user shows. *)
Definition LocalTime (t : Z) : Z := t + LocalTZA t true.

(** [UTC(t)]: the instant of the local time value [t]. *)
Definition UTC (t : Z) : Z := t - LocalTZA t false.

(** [new Date(text)] for a date-time text without a zone: the text is
    read as local time. *)
Definition dateOfText (d : DateTimeText) : Z :=
  UTC (dt_day d * msPerDay + dt_hours d * msPerHour
       + dt_minutes d * msPerMinute).

Definition startDateTime (now : Z) : Z :=
  let startDate := isoDatePart now in
  let startTime := (12, 0) in
  dateOfText (mkDateTimeText startDate (fst startTime) (snd startTime)).

(** The object literal handed to [JSON.stringify]. *)
Definition proposal (tripId : string) (now : Z) (activity : Activity)
  : list (string * JS.value) :=
  [ ("name", JS.VString (name activity));
    ("description", JS.VString (description activity));
    ("location", JS.VString (location activity));
    ("startTime", JS.VIsoString (startDateTime now));
    ("endTime", JS.VNull);
    ("category", JS.VString (category activity));
    ("cost", if JS.truthy_string (price activity)
             then JS.VNumber (JS.parseFloat (price activity))
             else JS.VNull);
    ("maxCapacity", JS.VNumber (JS.number_of_Z 10));
    ("tripCalendarId", JS.VNumber (JS.parseInt tripId)) ].

Definition proposeRequest (tripId : string) (now : Z) (activity : Activity)
  : Request :=
  mkRequest "POST" ("/api/trips/" +:+ tripId +:+ "/activities")
            [("Content-Type", "application/json")] "include"
            (Some (JS.stringify_object (proposal tripId now activity))).

(** What the [try] block throws on the response, if anything. *)
Definition thrown (r : FetchResult) : option Thrown :=
  match r with
  | NetworkError => Some FetchRejected
  | Response true _ => None
  | Response false None => Some BodyNotJson
  | Response false (Some JS.JNull) => Some NullBody
  | Response false (Some error) =>
      match JS.get "message" error with
      | Some m => if JS.truthy_json m then Some (ErrorOf m)
                  else Some (ErrorOf (JS.JString "Failed to propose activity"))
      | None => Some (ErrorOf (JS.JString "Failed to propose activity"))
      end
  end.

(** [handleProposeActivity(activity)], run at the clock reading [now]
    with [r] the outcome of its request. *)
Definition handleProposeActivity (tripId : string) (now : Z)
    (activity : Activity) (r : FetchResult) : list Effect :=
  Fetch (proposeRequest tripId now activity) ::
  match thrown r with
  | None =>
      [ ShowToast (mkToast "Activity proposed!"
                     "Your group can now see and accept this activity." None) ]
  | Some error =>
      if isUnauthorizedError error then
        [ ShowToast (mkToast "Unauthorized"
                       "You are logged out. Logging in again..."
                       (Some "destructive"));
          RedirectAfter 500 "/api/login" ]
      else
        [ ShowToast (mkToast "Error" "Failed to propose activity"
                       (Some "destructive")) ]
  end.

End WithEnvironment.

(** The member of the request body named [k]. *)
Definition bodyMember (k : string) (r : Request) : option JS.json :=
  match req_body r with
  | Some b => JS.get k b
  | None => None
  end.

End Discover.

(** ** The server side of the specification

    The server is not among the client sources under study; its store, its
    aggregator and its session registry are written here after sections 3
    and 4 of the specification. *)

Module Store.

(** Modelled from the spec: the error taxonomy of section 7; the server's
    error types are missing from the sources. *)
Inductive Error :=
| ValidationError
| NotFoundError
| AuthorizationError
| TransientStoreError.

(** Modelled from the spec: the Activity of section 3 (identity, owning
    group, descriptive attributes, proposer, creation time); the server's
    schema is missing from the sources. *)
Record Activity := mkActivity {
  id : Z;
  groupId : Z;
  name : string;
  category : string;
  startTime : string;
  proposer : string;
  createdAt : Z
}.

(** Modelled from the spec: the Response of section 3, identified by
    (activity id, member id), with its accepted flag and the time of its
    last change; the server's schema is missing from the sources. *)
Record Response := mkResponse {
  activityId : Z;
  memberId : string;
  accepted : bool;
  timestamp : Z
}.

(** Modelled from the spec: the store of section 4.1 with the group
    membership it consults.  Activities are kept in creation order; the
    responses are keyed by their composite identity, which is the
    uniqueness invariant of section 3; the server's storage layer is
    missing from the sources. *)
Record State := mkState {
  activities : list Activity;
  responses : gmap (Z * string) (bool * Z);
  membership : gset (Z * string);
  nextId : Z
}.

(** Modelled from the spec: the store before any mutation. *)
Definition empty : State := mkState [] ∅ ∅ 1.

(** Modelled from the spec: the activity of a given identity, if the store
    holds one (the existence check of [recordResponse], section 4.1). *)
Definition findActivity (a : Z) (s : State) : option Activity :=
  List.find (fun x => id x =? a) (activities s).

(** Modelled from the spec: the fields of a proposal, of which the name
    and a parsable start time are required ([createActivity], 4.1). *)
Record Fields := mkFields {
  f_name : option string;
  f_category : string;
  f_startTime : option string
}.

(** Modelled from the spec: [createActivity(groupId, proposerId, fields)]
    of section 4.1, whose implementation is missing from the sources:
    [ValidationError] when a required field is missing or the start time
    does not parse, a new row on every successful call. *)
Definition createActivity (g : Z) (proposerId : string) (f : Fields) (now : Z)
    (s : State) : Error + (Activity * State) :=
  match f_name f, f_startTime f with
  | Some n, Some t =>
      let a := mkActivity (nextId s) g n (f_category f) t proposerId now in
      inr (a, mkState (activities s ++ [a]) (responses s) (membership s)
                      (nextId s + 1))
  | _, _ => inl ValidationError
  end.

(** Modelled from the spec: [recordResponse(activityId, memberId,
    accepted)] of section 4.1, whose implementation is missing from the
    sources: [NotFoundError] when the activity or the membership does not
    exist, else an upsert of the (activityId, memberId) pair that
    overwrites the accepted flag and the timestamp. *)
Definition recordResponse (a : Z) (m : string) (acc : bool) (now : Z)
    (s : State) : Error + (Response * State) :=
  match findActivity a s with
  | None => inl NotFoundError
  | Some act =>
      if bool_decide ((groupId act, m) ∈ membership s) then
        inr (mkResponse a m acc now,
             mkState (activities s) (<[(a, m) := (acc, now)]> (responses s))
                     (membership s) (nextId s))
      else inl NotFoundError
  end.

(** Modelled from the spec: [listActivitiesForGroup(groupId)] of section
    4.1, in creation order. *)
Definition listActivitiesForGroup (g : Z) (s : State) : list Activity :=
  List.filter (fun x => groupId x =? g) (activities s).

(** Modelled from the spec: [listResponses(activityId)] of section 4.1. *)
Definition listResponses (a : Z) (s : State) : list Response :=
  omap (fun kv : (Z * string) * (bool * Z) =>
          if kv.1.1 =? a
          then Some (mkResponse kv.1.1 kv.1.2 kv.2.1 kv.2.2)
          else None)
       (map_to_list (responses s)).

(** Modelled from the spec: [deleteActivity(activityId)] of section 4.1,
    which cascades to the responses of the activity. *)
Definition deleteActivity (a : Z) (s : State) : State :=
  mkState (List.filter (fun x => negb (id x =? a)) (activities s))
          (filter (fun kv : (Z * string) * (bool * Z) => kv.1.1 ≠ a) (responses s))
          (membership s) (nextId s).

(** Modelled from the spec: a member joining a group (the external
    membership of section 3). *)
Definition joinGroup (g : Z) (m : string) (s : State) : State :=
  mkState (activities s) (responses s) ({[ (g, m) ]} ∪ membership s) (nextId s).

(** Modelled from the spec: the owning group of an activity (section 3). *)
Definition groupOf (a : Z) (s : State) : option Z :=
  groupId <$> findActivity a s.

(** Modelled from the spec: a member leaving a group, which removes the
    member's responses to the activities of the group (life cycle of a
    Response, section 3). *)
Definition leaveGroup (g : Z) (m : string) (s : State) : State :=
  mkState (activities s)
          (filter (fun kv : (Z * string) * (bool * Z) =>
                     ¬ (kv.1.2 = m ∧ groupOf kv.1.1 s = Some g))
                  (responses s))
          (membership s ∖ {[ (g, m) ]}) (nextId s).

(** Modelled from the spec: the derived view of section 3. *)
Record ActivityWithParticipation := mkView {
  awp_activity : Activity;
  participantCount : nat;
  isMineAccepted : bool
}.

(** Modelled from the spec: [deriveView(activity, responses, callerId)] of
    section 4.2, whose implementation is missing from the sources: the
    participant count is the number of responses with accepted = true, and
    [isMineAccepted] holds iff a response of the caller exists with
    accepted = true. *)
Definition deriveView (act : Activity) (rs : list Response) (callerId : string)
    : ActivityWithParticipation :=
  mkView act
         (List.length (List.filter accepted rs))
         (existsb (fun r => bool_decide (memberId r = callerId) && accepted r) rs).

(** Modelled from the spec: the derived view as the client receives it
    ("the only state pushed to clients", section 3); the caller's own
    acceptance state is the [isAccepted] flag the trip page reads. *)
Definition toClient (v : ActivityWithParticipation) : Schema.ActivityWithDetails :=
  Schema.mkActivity (id (awp_activity v)) (name (awp_activity v))
                    (category (awp_activity v)) (startTime (awp_activity v))
                    (Some (isMineAccepted v)).

(** Modelled from the spec: the authoritative list of a group for one
    caller: every activity of the group, each with its derived view. *)
Definition activitiesFor (g : Z) (callerId : string) (s : State)
    : list Schema.ActivityWithDetails :=
  map (fun act => toClient (deriveView act (listResponses (id act) s) callerId))
      (listActivitiesForGroup g s).

(** Modelled from the spec: the mutations of the store (sections 3 and
    4.1) as a history; a mutation that fails commits nothing (section 7),
    so it leaves the state as it was. *)
Inductive Op :=
| OpJoinGroup (g : Z) (m : string)
| OpLeaveGroup (g : Z) (m : string)
| OpCreate (g : Z) (proposerId : string) (f : Fields) (now : Z)
| OpRespond (a : Z) (m : string) (acc : bool) (now : Z)
| OpDelete (a : Z).

Definition apply (s : State) (o : Op) : State :=
  match o with
  | OpJoinGroup g m => joinGroup g m s
  | OpLeaveGroup g m => leaveGroup g m s
  | OpCreate g p f now =>
      match createActivity g p f now s with
      | inr (_, s') => s'
      | inl _ => s
      end
  | OpRespond a m acc now =>
      match recordResponse a m acc now s with
      | inr (_, s') => s'
      | inl _ => s
      end
  | OpDelete a => deleteActivity a s
  end.

Definition run (ops : list Op) : State := fold_left apply ops empty.

(** Modelled from the spec: the members of a group (group membership,
    section 3). *)
Definition members (g : Z) (s : State) : list string :=
  omap (fun gm : Z * string => if gm.1 =? g then Some gm.2 else None)
       (elements (membership s)).

(** What the mutations keep true of the store: activity ids are unique
    and below the next id, and every response belongs to an existing
    activity and to a member of the group of that activity. *)
Definition wellFormed (s : State) : Prop :=
  NoDup (map id (activities s))
  /\ (forall act, In act (activities s) -> id act < nextId s)
  /\ (forall a m v, responses s !! (a, m) = Some v ->
        exists act, findActivity a s = Some act
                    /\ (groupId act, m) ∈ membership s).

(** The number of responses to [a] with accepted = true. *)
Definition acceptedCount (a : Z) (s : State) : nat :=
  List.length (List.filter accepted (listResponses a s)).

End Store.

(** Modelled from the spec: the session registry of section 4.4, missing
    from the sources.  A session is registered against one group at a time,
    so the registry maps a session handle to its member and group. *)
Module Registry.

(** Modelled from the spec: the registry state, session handle to member
    and group. *)
Definition State := gmap Z (string * Z).

(** Modelled from the spec: [join(sessionHandle, memberId, groupId)] of
    section 4.4; joining again replaces the former group. *)
Definition join (h : Z) (m : string) (g : Z) (r : State) : State :=
  <[h := (m, g)]> r.

(** Modelled from the spec: [leave(sessionHandle)] of section 4.4. *)
Definition leave (h : Z) (r : State) : State := delete h r.

(** Modelled from the spec: the delivery set of a group, the sessions
    registered for it. *)
Definition deliverySet (g : Z) (r : State) : gset Z :=
  dom (filter (fun kv : Z * (string * Z) => kv.2.2 = g) r).

(** The integer a JSON number writes, when it writes one. *)
Definition integerOf (j : JS.json) : option Z :=
  match j with
  | JS.JNumber neg d =>
      if 0 <=? JS.dec_exp d
      then Some ((if neg then -1 else 1) * JS.dec_mant d * 10 ^ JS.dec_exp d)
      else None
  | _ => None
  end.

(** Modelled from the spec: the transport hands a client's
    [join(groupId)] message to [join]; other messages leave the registry
    as it was. *)
Definition receive (h : Z) (message : JS.json) (r : State) : State :=
  match JS.get "type" message, JS.get "userId" message,
        JS.get "tripId" message with
  | Some (JS.JString t), Some (JS.JString u), Some tripId =>
      match integerOf tripId with
      | Some g => if JS.str_eq t "join_trip" then join h u g r else r
      | None => r
      end
  | _, _, _ => r
  end.

End Registry.

(** ** One session of a member against the store

    The trip page of one member together with the store its requests
    reach, and the fetches the query library runs for the page. *)

Module Session.
Import Schema ReactQuery Http TripLive.

(** Modelled from the spec: the answer to the fetch of the activities
    query, the list of the group with the view derived for the caller
    (sections 4.1 and 4.2); the endpoint is missing from the sources. *)
Definition fetchActivities (g : Z) (m : string) (s : Store.State) : QueryData :=
  ActivitiesData (Store.activitiesFor g m s).

(** Modelled from the spec: the fetch of a stale query, answered by the
    store (section 4.2).  The query library fetches a query of a mounted
    page again once it is marked stale, and keeps the answer as fresh
    data; this is written for the activities query, the one whose answer
    the store gives.  The page has no timer and no other trigger of a
    fetch. *)
Definition refetch (g : Z) (m : string) (s : Store.State) (id : string)
    (q : Query) : Query :=
  if isInvalidated q && bool_decide (queryKey q = activitiesKey id)
  then mkQuery (queryKey q) (Some (fetchActivities g m s)) false
  else q.

(** The page once the fetches that are due have been answered by the
    store [s]. *)
Definition settle (g : Z) (m : string) (s : Store.State) (p : Page) : Page :=
  set_cache (map (refetch g m s (pg_id p)) (pg_cache p)) p.

(** Whether no fetch of the activities query is due. *)
Definition settled (p : Page) : bool :=
  forallb (fun q => negb (isInvalidated q
                          && bool_decide (queryKey q = activitiesKey (pg_id p))))
          (pg_cache p).

(** The store and the page of one member. *)
Record World := mkWorld {
  server : Store.State;
  client : Page
}.

Inductive Action :=
| Elsewhere (o : Store.Op)        (* committed through another session *)
| Deliver (message : JS.json)     (* the socket of the page delivers a message *)
| Respond (a : Z) (acc : bool) (now : Z).  (* accept or decline on this page *)

(** Modelled from the spec: the response to an accept or a decline, ok
    when the store recorded the Response and an error otherwise (sections
    4.1 and 7); the endpoint is missing from the sources. *)
Definition answer (r : Store.Error + (Store.Response * Store.State))
  : FetchResult :=
  match r with
  | inr _ => Response true (Some (JS.JObject []))
  | inl _ =>
      Response false (Some (JS.JObject [("message", JS.JString "Not found")]))
  end.

Section OfMember.

(** The trip of the page and the member signed in on it. *)
Variable g : Z.
Variable m : string.

(** Modelled from the spec: one action of the session, with the fetches it
    makes due answered at once.  An accept or a decline made on the page
    reaches [recordResponse] (section 4.1) and the page gets the answer; a
    mutation committed elsewhere changes the store alone, and the page
    learns of it through what its socket delivers (section 4.3).  The
    server routes are missing from the sources. *)
Definition step (w : World) (x : Action) : World :=
  match x with
  | Elsewhere o => mkWorld (Store.apply (server w) o) (client w)
  | Deliver message =>
      mkWorld (server w)
              (settle g m (server w)
                      (TripLive.step (client w) (SocketMessage message)))
  | Respond a acc now =>
      let r := answer (Store.recordResponse a m acc now (server w)) in
      let s' := Store.apply (server w) (Store.OpRespond a m acc now) in
      mkWorld s'
              (settle g m s'
                      (TripLive.step (client w)
                                     (if acc then Accept a r else Decline a r)))
  end.

Definition run (w : World) (xs : list Action) : World := fold_left step xs w.

End OfMember.

(** Whether activity [a] is on the personal schedule the page shows. *)
Definition onSchedule (a : Z) (p : Page) : bool :=
  existsb (fun x => act_id x =? a) (TripPage.getMySchedule (view p)).

(** The number of pages whose personal schedule shows [a]. *)
Definition scheduleCount (a : Z) (clients : list Page) : nat :=
  List.length (List.filter (onSchedule a) clients).

(** Modelled from the spec: whether member [m] holds a Response to [a]
    with accepted = true (section 3). *)
Definition holdsAccepted (a : Z) (m : string) (s : Store.State) : bool :=
  match Store.responses s !! (a, m) with
  | Some (true, _) => true
  | _ => false
  end.

End Session.

(** ** Sample data: member X of trip 5 with the activities A (accepted),
    B (declined) and C (no response) *)

Module Sample.
Import Schema ReactQuery Http TripLive.

Definition A : ActivityWithDetails :=
  mkActivity 1 "Sushi dinner" "food" "2025-08-01T18:00:00.000Z" (Some true).
Definition B : ActivityWithDetails :=
  mkActivity 2 "Museum" "culture" "2025-08-02T10:00:00.000Z" (Some false).
Definition C : ActivityWithDetails :=
  mkActivity 3 "Hike" "outdoor" "2025-08-03T08:00:00.000Z" None.

Definition X : User := mkUser "member-x".

Definition viewX : TripPage.View := TripPage.mkView (Some [A; B; C]) (Some X) "all".

Definition cache : QueryCache :=
  [ mkQuery (tripKey "5") (Some (TripData (mkTrip 5))) false;
    mkQuery (activitiesKey "5") (Some (ActivitiesData [A; B; C])) false ].

(** The trip page of member X, freshly mounted. *)
Definition page : Page :=
  mkPage "5" (mkLocation "https:" "trips.example") (Some X) "all" cache None [].

(** The same page once its socket is open. *)
Definition connected : Page := run page [EffectRun; SocketOpened].

(** A store history: X and Y join group 5, X proposes an activity, both
    accept it, then Y declines. *)
Definition history : list Store.Op :=
  [ Store.OpJoinGroup 5 "member-x";
    Store.OpJoinGroup 5 "member-y";
    Store.OpCreate 5 "member-x"
      (Store.mkFields (Some "Sushi dinner") "food"
                      (Some "2025-08-01T18:00:00.000Z")) 100;
    Store.OpRespond 1 "member-x" true 110;
    Store.OpRespond 1 "member-y" true 120;
    Store.OpRespond 1 "member-y" false 130 ].

(** Two discovered activities: one priced ["Free"], one without a price. *)
Definition freeTour : Discover.Activity :=
  Discover.mkActivity "d1" "Walking tour" "Old town on foot" "Lisbon"
                      "sightseeing" "Free" "2h" (JS.number_of_Z 5)
                      "https://tours.example/1" None.

Definition unpricedTour : Discover.Activity :=
  Discover.mkActivity "d1" "Walking tour" "Old town on foot" "Lisbon"
                      "sightseeing" "" "2h" (JS.number_of_Z 5)
                      "https://tours.example/1" None.

Definition sushi : Store.Activity :=
  Store.mkActivity 1 5 "Sushi dinner" "food" "2025-08-01T18:00:00.000Z"
                   "member-x" 100.

(** The store once X and Y joined trip 5, X proposed the sushi dinner and
    both accepted it. *)
Definition bothAccepted : list Store.Op :=
  [ Store.OpJoinGroup 5 "member-x";
    Store.OpJoinGroup 5 "member-y";
    Store.OpCreate 5 "member-x"
      (Store.mkFields (Some "Sushi dinner") "food"
                      (Some "2025-08-01T18:00:00.000Z")) 100;
    Store.OpRespond 1 "member-x" true 110;
    Store.OpRespond 1 "member-y" true 120 ].

Definition server : Store.State := Store.run bothAccepted.

(** The trip page of member [m], holding the list fetched from [s], with
    its socket open. *)
Definition pageOf (m : string) (s : Store.State) : Page :=
  run (mkPage "5" (mkLocation "https:" "trips.example") (Some (mkUser m)) "all"
              [ mkQuery (tripKey "5") (Some (TripData (mkTrip 5))) false;
                mkQuery (activitiesKey "5")
                        (Some (Session.fetchActivities 5 m s)) false ]
              None [])
      [EffectRun; SocketOpened].

(** X declines the sushi dinner from a second session, and the change
    event reaches the page. *)
Definition declineX : Store.Op := Store.OpRespond 1 "member-x" false 130.

Definition remoteDecline : list Session.Action :=
  [ Session.Elsewhere declineX;
    Session.Deliver (changeEvent 5 1 declined) ].

End Sample.

Import Schema TripPage.

(** ** Views: lemmas *)

Lemma truthy_flag_true (v : option bool) :
  JS.truthy_flag v = true <-> v = Some true.
Proof. destruct v as [[|]|]; simpl; split; congruence. Qed.

Lemma getMySchedule_fetched acts u c :
  getMySchedule (mkView (Some acts) (Some u) c)
  = List.filter (fun a => JS.truthy_flag (act_isAccepted a)) acts.
Proof. reflexivity. Qed.

Lemma getFilteredActivities_all acts u :
  getFilteredActivities (mkView (Some acts) u "all") = acts.
Proof. reflexivity. Qed.

(** Rewriting every acceptance flag of the fetched list commutes with the
    group-calendar filter: the filter never reads a response. *)
Lemma getFilteredActivities_ignores_responses
    (f : ActivityWithDetails -> option bool) acts u c :
  getFilteredActivities
    (mkView (Some (map (fun a => with_isAccepted (f a) a) acts)) u c)
  = map (fun a => with_isAccepted (f a) a)
        (getFilteredActivities (mkView (Some acts) u c)).
Proof.
  unfold getFilteredActivities; simpl.
  destruct (JS.str_eq c "all"); [reflexivity|].
  induction acts as [|a acts IH]; simpl; [reflexivity|].
  destruct (JS.str_eq (act_category a) c); simpl; rewrite IH; reflexivity.
Qed.

(** C1. For a fetched list and a signed-in member, the group calendar with
    the category filter ["all"] is the whole fetched list, its content does
    not depend on anybody's response flags, and the personal schedule holds
    exactly the activities of the list whose [isAccepted] flag is true. *)
Theorem C1_group_all_personal_accepted :
  forall (acts : list ActivityWithDetails) (u : User),
    getFilteredActivities (mkView (Some acts) (Some u) "all") = acts
    /\ (forall (f : ActivityWithDetails -> option bool) (c : string),
          getFilteredActivities
            (mkView (Some (map (fun a => with_isAccepted (f a) a) acts)) (Some u) c)
          = map (fun a => with_isAccepted (f a) a)
                (getFilteredActivities (mkView (Some acts) (Some u) c)))
    /\ (forall c a,
          In a (getMySchedule (mkView (Some acts) (Some u) c))
          <-> In a acts /\ act_isAccepted a = Some true)
    /\ (forall c,
          getMySchedule (mkView (Some acts) (Some u) c)
          = List.filter (fun a => JS.truthy_flag (act_isAccepted a)) acts).
Proof.
  intros acts u. split; [reflexivity|]. split.
  - intros f c. apply getFilteredActivities_ignores_responses.
  - split; [|reflexivity].
    intros c a. rewrite getMySchedule_fetched, filter_In, truthy_flag_true.
    reflexivity.
Qed.

(** C9. The personal schedule does not depend on the selected category
    filter: two views that differ only in [categoryFilter] have the same
    schedule. *)
Theorem C9_schedule_independent_of_filter :
  forall (v : View) (c1 c2 : string),
    getMySchedule (set_categoryFilter c1 v)
    = getMySchedule (set_categoryFilter c2 v).
Proof. intros [acts u c] c1 c2. reflexivity. Qed.

(** C10. With the category filter ["all"], every activity of the personal
    schedule is also in the group calendar. *)
Theorem C10_schedule_subset_of_group :
  forall (v : View) (a : ActivityWithDetails),
    categoryFilter v = "all" ->
    In a (getMySchedule v) -> In a (getFilteredActivities v).
Proof.
  intros [acts u c] a Hc; simpl in Hc; subst c.
  unfold getMySchedule, getFilteredActivities; simpl.
  destruct acts as [acts|]; [|intros []].
  destruct u as [u|]; [|intros []].
  rewrite filter_In. tauto.
Qed.

Lemma C10_witness : In Sample.A (getFilteredActivities Sample.viewX).
Proof.
  apply (C10_schedule_subset_of_group Sample.viewX Sample.A).
  - reflexivity.
  - simpl. left. reflexivity.
Defined.

(** The scenario of the specification: A accepted by X, B declined by X, C
    without a response of X.  The personal schedule of X holds A alone, the
    group calendar all three, and a category filter narrows the calendar
    only. *)
Example group_vs_personal :
  getMySchedule Sample.viewX = [Sample.A]
  /\ getFilteredActivities Sample.viewX = [Sample.A; Sample.B; Sample.C]
  /\ getFilteredActivities (set_categoryFilter "culture" Sample.viewX) = [Sample.B]
  /\ getMySchedule (set_categoryFilter "culture" Sample.viewX) = [Sample.A].
Proof. repeat split. Qed.




(** ** The query keys of the trip page *)

Import ReactQuery Http TripLive.

Lemma activitiesKey_not_live (id : string) (rest : QueryKey) :
  partialMatchKey (activitiesKey id ++ rest) (liveKey id) = false.
Proof.
  unfold activitiesKey, liveKey; simpl. reflexivity.
Qed.

Lemma partialMatchKey_refl (k : QueryKey) : partialMatchKey k k = true.
Proof.
  induction k as [|x k IH]; simpl; [reflexivity|].
  rewrite IH, andb_true_r. unfold JS.str_eq. apply bool_decide_eq_true. reflexivity.
Qed.

(** A query matched by the filter [activitiesKey id] has a key that starts
    with that one string. *)
Lemma matches_activitiesKey (id : string) (k : QueryKey) :
  partialMatchKey k (activitiesKey id) = true ->
  exists rest, k = activitiesKey id ++ rest.
Proof.
  unfold activitiesKey. destruct k as [|x k]; [discriminate|].
  cbn [partialMatchKey]. intros [H _]%andb_prop.
  unfold JS.str_eq in H. apply bool_decide_eq_true in H.
  exists k. subst x. reflexivity.
Qed.

Lemma queryKey_invalidate_cond (k : QueryKey) (q : Query) :
  queryKey (if partialMatchKey (queryKey q) k then invalidate q else q) = queryKey q.
Proof. destruct (partialMatchKey (queryKey q) k); reflexivity. Qed.

Lemma data_invalidate_cond (k : QueryKey) (q : Query) :
  data (if partialMatchKey (queryKey q) k then invalidate q else q) = data q.
Proof. destruct (partialMatchKey (queryKey q) k); reflexivity. Qed.

(** Invalidation marks queries stale; the data they hold stays as it is. *)
Lemma getQueryData_invalidateQueries (k f : QueryKey) (c : QueryCache) :
  getQueryData k (invalidateQueries f c) = getQueryData k c.
Proof.
  induction c as [|q c IH]; simpl; [reflexivity|].
  rewrite queryKey_invalidate_cond, data_invalidate_cond, IH. reflexivity.
Qed.

(** The invalidation of the message handler reaches no query cached under
    the activities key. *)
Lemma invalidate_live_keeps_activities (id : string) (c : QueryCache) :
  matching (activitiesKey id) (invalidateQueries (liveKey id) c)
  = matching (activitiesKey id) c.
Proof.
  induction c as [|q c IH]; simpl; [reflexivity|].
  rewrite queryKey_invalidate_cond, IH.
  destruct (partialMatchKey (queryKey q) (activitiesKey id)) eqn:E; [|reflexivity].
  apply matches_activitiesKey in E as [rest E].
  rewrite E, activitiesKey_not_live. reflexivity.
Qed.

(** The invalidation of the two mutations reaches every query cached under
    the activities key. *)
Lemma invalidate_activities_marks (id : string) (c : QueryCache) :
  matching (activitiesKey id) (invalidateQueries (activitiesKey id) c)
  = map invalidate (matching (activitiesKey id) c).
Proof.
  induction c as [|q c IH]; simpl; [reflexivity|].
  rewrite queryKey_invalidate_cond.
  destruct (partialMatchKey (queryKey q) (activitiesKey id)) eqn:E;
    simpl; rewrite IH; reflexivity.
Qed.

Lemma step_message_cases (p : Page) (message : JS.json) :
  step p (SocketMessage message) = p
  \/ step p (SocketMessage message) = invalidateQueriesOn (liveKey (pg_id p)) p.
Proof.
  simpl. destruct (pg_socket p) as [c|]; [|left; reflexivity].
  destruct (readyState c); try (left; reflexivity).
  unfold onmessage. destruct (isActivityChange message); [right|left]; reflexivity.
Qed.

(** C2 (what the code does). Whatever change event the open socket delivers,
    the queries cached under the key the activities list was fetched with
    are exactly as before, stale flag included: the handler invalidates
    [["/api/trips"; id; "activities"]], which matches no such query.  A
    [deleted] event is not handled at all, and the sibling path, a
    successful accept, does mark those queries stale. *)
Theorem C2_change_event_misses_activities_query :
  forall (p : Page) (g a : Z) (k : ChangeKind),
    matching (activitiesKey (pg_id p))
             (pg_cache (step p (SocketMessage (changeEvent g a k))))
    = matching (activitiesKey (pg_id p)) (pg_cache p)
    /\ step p (SocketMessage (changeEvent g a deleted)) = p
    /\ (forall j,
          matching (activitiesKey (pg_id p))
                   (pg_cache (step p (Accept a (Response true (Some j)))))
          = map invalidate (matching (activitiesKey (pg_id p)) (pg_cache p))).
Proof.
  intros p g a k. split; [|split].
  - destruct (step_message_cases p (changeEvent g a k)) as [-> | ->];
      [reflexivity|].
    apply invalidate_live_keeps_activities.
  - simpl. destruct (pg_socket p) as [c|]; [|reflexivity].
    destruct (readyState c); reflexivity.
  - intros j. simpl. apply invalidate_activities_marks.
Qed.

(** C2 at a concrete page: trip "5" with its activities query cached and
    fresh and the socket open.  An [activity_created] event leaves the whole
    cache as it was, while a successful accept marks the activities query
    stale. *)
Example C2_created_event_on_sample_page :
  pg_cache (step Sample.connected (SocketMessage (changeEvent 5 4 created)))
  = Sample.cache
  /\ since Sample.connected
           (step Sample.connected (SocketMessage (changeEvent 5 4 created)))
     = [InvalidateQueries ["/api/trips"; "5"; "activities"]]
  /\ pg_cache (step Sample.connected (Accept 1 (Response true (Some JS.JNull))))
     = [ mkQuery (tripKey "5") (Some (TripData (mkTrip 5))) false;
         mkQuery ["/api/trips/5/activities"]
                 (Some (ActivitiesData [Sample.A; Sample.B; Sample.C])) true ].
Proof. repeat split. Qed.

(** ** The response mutations *)

Lemma view_invalidateQueriesOn (k : QueryKey) (p : Page) :
  view (invalidateQueriesOn k p) = view p.
Proof.
  unfold view, activities; simpl.
  rewrite getQueryData_invalidateQueries. reflexivity.
Qed.

(** C5. When the server's answer to an accept or a decline is not ok, the
    cache and the two views are what they were; the page only issued the
    request and showed the error notice.  Neither mutation has an
    [onMutate] step, so nothing is changed before the answer; and for every
    outcome of the request the invalidation of the activities list is
    logged exactly when the request succeeded. *)
Theorem C5_failed_response_changes_nothing :
  forall (p : Page) (a : Z) (body : option JS.json),
    let pa := step p (Accept a (Response false body)) in
    let pd := step p (Decline a (Response false body)) in
    (pg_cache pa = pg_cache p /\ view pa = view p
     /\ pg_log pa
        = pg_log p ++ [ Fetch (mutationRequest acceptActivityMutation a);
                        ShowToast (mkToast "Error" "Failed to accept activity"
                                           (Some "destructive")) ])
    /\ (pg_cache pd = pg_cache p /\ view pd = view p
        /\ pg_log pd
           = pg_log p ++ [ Fetch (mutationRequest declineActivityMutation a);
                           ShowToast (mkToast "Error" "Failed to decline activity"
                                              (Some "destructive")) ])
    /\ onMutate acceptActivityMutation = None
    /\ onMutate declineActivityMutation = None
    /\ (forall r,
          pg_log (step p (Accept a r))
          = pg_log p ++ Fetch (mutationRequest acceptActivityMutation a) ::
              (if succeeded r
               then [ InvalidateQueries (activitiesKey (pg_id p));
                      ShowToast (mkToast "Activity accepted!"
                                         "Added to your personal calendar" None) ]
               else [ ShowToast (mkToast "Error" "Failed to accept activity"
                                         (Some "destructive")) ])
          /\ pg_log (step p (Decline a r))
             = pg_log p ++ Fetch (mutationRequest declineActivityMutation a) ::
                 (if succeeded r
                  then [ InvalidateQueries (activitiesKey (pg_id p));
                         ShowToast (mkToast "Activity declined"
                                            "Removed from your calendar" None) ]
                  else [ ShowToast (mkToast "Error" "Failed to decline activity"
                                            (Some "destructive")) ])
          /\ (succeeded r = false ->
              pg_cache (step p (Accept a r)) = pg_cache p
              /\ pg_cache (step p (Decline a r)) = pg_cache p)).
Proof.
  intros p a body pa pd. subst pa pd.
  split; [|split; [|split; [|split]]]; try reflexivity.
  - simpl. rewrite <- !app_assoc. repeat split.
  - simpl. rewrite <- !app_assoc. repeat split.
  - intros r. destruct r as [|[|] [j|]]; simpl; rewrite <- ?app_assoc;
      repeat split; intros; try discriminate; reflexivity.
Qed.

Lemma C5_witness :
  pg_cache (step Sample.connected (Accept 1 NetworkError)) = pg_cache Sample.connected
  /\ pg_cache (step Sample.connected (Decline 1 NetworkError)) = pg_cache Sample.connected.
Proof.
  apply (C5_failed_response_changes_nothing Sample.connected 1 None).
  reflexivity.
Defined.

(** ** The live channel *)

Lemma since_log (p p' : Page) (l : list Effect) :
  pg_log p' = pg_log p ++ l -> since p p' = l.
Proof. unfold since. intros ->. apply drop_app_length. Qed.


Lemma trip_effectCleanup (p : Page) : trip (effectCleanup p) = trip p.
Proof. unfold effectCleanup. destruct (pg_socket p); reflexivity. Qed.

(** What no event changes: the route parameter, the location, the user and
    the data held by the cache. *)
Lemma step_static (p : Page) (e : Event) :
  pg_id (step p e) = pg_id p
  /\ pg_user (step p e) = pg_user p
  /\ pg_location (step p e) = pg_location p
  /\ forall k, getQueryData k (pg_cache (step p e)) = getQueryData k (pg_cache p).
Proof.
  assert (Hdone : forall q : Page,
            pg_id q = pg_id p -> pg_user q = pg_user p ->
            pg_location q = pg_location p ->
            (pg_cache q = pg_cache p
             \/ exists k, pg_cache q = invalidateQueries k (pg_cache p)) ->
            pg_id q = pg_id p /\ pg_user q = pg_user p
            /\ pg_location q = pg_location p
            /\ forall k, getQueryData k (pg_cache q) = getQueryData k (pg_cache p)).
  { intros q H1 H2 H3 [H4|[k' H4]]; repeat split; auto; intros k; rewrite H4;
      [reflexivity | apply getQueryData_invalidateQueries]. }
  apply Hdone; clear Hdone;
    destruct e as [| | |message| | |a r|a r]; simpl;
    unfold effectBody, effectCleanup, onmessage, mutate; simpl;
    repeat match goal with
           | |- context [match ?x with _ => _ end] => destruct x eqn:?; simpl
           end;
    try reflexivity; try (left; reflexivity); right; eexists; reflexivity.
Qed.

Lemma trip_step (p : Page) (e : Event) : trip (step p e) = trip p.
Proof.
  unfold trip. destruct (step_static p e) as (-> & _ & _ & H). rewrite H.
  reflexivity.
Qed.

Lemma ready_step (p : Page) (e : Event) : ready (step p e) = ready p.
Proof.
  unfold ready. rewrite trip_step.
  destruct (step_static p e) as (_ & -> & _). reflexivity.
Qed.

Lemma refetchesList_live (id : string) :
  refetchesList id (InvalidateQueries (liveKey id)) = false.
Proof. apply (activitiesKey_not_live id []). Qed.

Lemma refetchesList_activities (id : string) :
  refetchesList id (InvalidateQueries (activitiesKey id)) = true.
Proof. apply partialMatchKey_refl. Qed.

(** The effects of one event: a socket is opened only by a run of the effect
    that has a trip and a user, and the activities list is fetched again
    only by an accept or a decline that succeeded. *)
Lemma step_log (p : Page) (e : Event) :
  exists l,
    pg_log (step p e) = pg_log p ++ l
    /\ opensSocket l = isEffectRun e && ready p
    /\ refetchesActivities (pg_id p) l = isSuccess e.
Proof.
  destruct e as [| | |message| | |a r|a r]; simpl.
  - unfold effectBody, effectCleanup, ready, trip.
    destruct (pg_socket p); simpl;
      destruct (getQueryData (tripKey (pg_id p)) (pg_cache p)) as [[acts|t]|];
      simpl; destruct (pg_user p); simpl;
      rewrite <- ?app_assoc; eexists;
      (split; [reflexivity || (symmetry; apply app_nil_r)|]);
      split; reflexivity.
  - unfold effectCleanup. destruct (pg_socket p); simpl;
      eexists; (split; [reflexivity || (symmetry; apply app_nil_r)|]);
      split; reflexivity.
  - destruct (pg_socket p) as [c|]; [destruct (readyState c)|]; simpl;
      eexists; (split; [reflexivity || (symmetry; apply app_nil_r)|]);
      split; reflexivity.
  - destruct (pg_socket p) as [c|]; [destruct (readyState c)|]; simpl;
      try (exists []; rewrite app_nil_r; repeat split; fail).
    unfold onmessage. destruct (isActivityChange message); simpl.
    + eexists; split; [reflexivity|]. split; [reflexivity|].
      change (refetchesList (pg_id p) (InvalidateQueries (liveKey (pg_id p)))
              || false = false).
      rewrite refetchesList_live. reflexivity.
    + exists []; rewrite app_nil_r; repeat split.
  - destruct (pg_socket p) as [c|]; simpl;
      exists []; rewrite app_nil_r; repeat split.
  - exists []; rewrite app_nil_r; repeat split.
  - unfold mutate; destruct r as [|[|] [j|]]; simpl;
      rewrite <- ?app_assoc; eexists; (split; [reflexivity|]);
      (split; [reflexivity|]); try reflexivity;
      unfold refetchesActivities; cbn [app existsb];
      rewrite refetchesList_activities; reflexivity.
  - unfold mutate; destruct r as [|[|] [j|]]; simpl;
      rewrite <- ?app_assoc; eexists; (split; [reflexivity|]);
      (split; [reflexivity|]); try reflexivity;
      unfold refetchesActivities; cbn [app existsb];
      rewrite refetchesList_activities; reflexivity.
Qed.

Lemma run_log (es : list Event) (p : Page) :
  exists l,
    pg_log (run p es) = pg_log p ++ l
    /\ opensSocket l = existsb isEffectRun es && ready p
    /\ refetchesActivities (pg_id p) l = existsb isSuccess es.
Proof.
  revert p. induction es as [|e es IH]; intros p.
  - exists []. rewrite app_nil_r. repeat split.
  - destruct (step_log p e) as (l1 & Hl1 & Ho1 & Hr1).
    destruct (IH (step p e)) as (l2 & Hl2 & Ho2 & Hr2).
    exists (l1 ++ l2). split; [|split].
    + change (run p (e :: es)) with (run (step p e) es).
      rewrite Hl2, Hl1, app_assoc. reflexivity.
    + unfold opensSocket in *. rewrite existsb_app, Ho1, Ho2, ready_step.
      simpl. destruct (isEffectRun e), (existsb isEffectRun es), (ready p);
        reflexivity.
    + destruct (step_static p e) as (Hid & _).
      unfold refetchesActivities in *. rewrite Hid in Hr2.
      rewrite existsb_app, Hr1, Hr2. reflexivity.
Qed.

Lemma socketInvariant_step (p : Page) (e : Event) :
  socketInvariant p -> socketInvariant (step p e).
Proof.
  unfold socketInvariant. intros H.
  pose proof (trip_step p e) as Ht.
  destruct (step_static p e) as (_ & Hu & _).
  rewrite Ht, Hu. clear Ht Hu.
  destruct e as [| | |message| | |a r|a r]; simpl.
  - unfold effectBody. rewrite trip_effectCleanup.
    assert (Hu : pg_user (effectCleanup p) = pg_user p)
      by (unfold effectCleanup; destruct (pg_socket p); reflexivity).
    rewrite Hu.
    assert (Hs : pg_socket (effectCleanup p) = None)
      by (unfold effectCleanup; destruct (pg_socket p) eqn:E; [reflexivity | exact E]).
    destruct (trip p) as [t|] eqn:Et, (pg_user p) as [u|] eqn:Eu; simpl;
      rewrite ?Hs; auto.
  - unfold effectCleanup; destruct (pg_socket p) eqn:E; simpl; rewrite ?E; exact I.
  - destruct (pg_socket p) as [c|] eqn:Es; [|rewrite Es; exact I].
    destruct (readyState c) eqn:Er; try (rewrite Es, Er; exact H).
    simpl. destruct H as (H1 & H2 & H3). rewrite H3. auto.
  - destruct (pg_socket p) as [c|] eqn:Es; [|rewrite Es; exact I].
    destruct (readyState c) eqn:Er; try (rewrite Es, Er; exact H).
    unfold onmessage. destruct (isActivityChange message); simpl;
      rewrite Es, Er; exact H.
  - destruct (pg_socket p) as [c|] eqn:Es; [|rewrite Es; exact I].
    simpl. destruct H as (H1 & H2 & H3).
    split; [exact H1|]. split; [exact H2|].
    destruct (readyState c); auto.
  - exact H.
  - unfold mutate. destruct r as [|[|] [j|]]; simpl; exact H.
  - unfold mutate. destruct r as [|[|] [j|]]; simpl; exact H.
Qed.

Lemma socketInvariant_run (es : list Event) (p : Page) :
  socketInvariant p -> socketInvariant (run p es).
Proof.
  revert p. induction es as [|e es IH]; intros p H; [exact H|].
  apply (IH (step p e)), socketInvariant_step, H.
Qed.

Lemma run_static (es : list Event) (p : Page) :
  pg_user (run p es) = pg_user p /\ trip (run p es) = trip p.
Proof.
  revert p. induction es as [|e es IH]; intros p; [split; reflexivity|].
  change (run p (e :: es)) with (run (step p e) es).
  destruct (IH (step p e)) as [-> ->].
  rewrite trip_step. destruct (step_static p e) as (_ & -> & _).
  split; reflexivity.
Qed.

(** ** The session registry of the specification and the join message *)

Lemma safe_integer_below_threshold (z : Z) :
  Z.abs z <= 2 ^ 53 - 1 -> JS.overflows (JS.mkDecimal (Z.abs z) 0) = false.
Proof.
  intros H. unfold JS.overflows; simpl.
  apply Z.leb_gt.
  assert (Ht : 2 ^ 53 <= JS.overflow_threshold) by (vm_compute; discriminate).
  replace (Z.abs z * 1) with (Z.abs z) by lia.
  generalize dependent JS.overflow_threshold. intros T HT. lia.
Qed.

Lemma number_of_Z_safe (z : Z) :
  Z.abs z <= 2 ^ 53 - 1 ->
  JS.number_of_Z z = JS.Finite (z <? 0) (JS.mkDecimal (Z.abs z) 0).
Proof.
  intros H. unfold JS.number_of_Z, JS.round_literal.
  rewrite safe_integer_below_threshold by exact H. reflexivity.
Qed.

(** An integer that is negative is not zero: its sign is written. *)
Lemma sign_of_integer (z : Z) :
  (z <? 0) && negb (JS.is_zero (JS.mkDecimal (Z.abs z) 0)) = (z <? 0).
Proof.
  unfold JS.is_zero. cbn [JS.dec_exp JS.dec_mant].
  change (0 <=? 0) with true. cbv iota.
  destruct (Z.ltb_spec z 0), (Z.eqb_spec (Z.abs z) 0); try reflexivity; lia.
Qed.

Lemma integerOf_integer (z : Z) :
  Registry.integerOf (JS.JNumber (z <? 0) (JS.mkDecimal (Z.abs z) 0)) = Some z.
Proof.
  unfold Registry.integerOf; simpl. f_equal.
  destruct (Z.ltb_spec z 0); lia.
Qed.

Lemma joinMessage_safe (u : User) (t : TripWithDetails) :
  Z.abs (trip_id t) <= 2 ^ 53 - 1 ->
  joinMessage u t
  = JS.JObject
      [ ("type", JS.JString "join_trip");
        ("userId", JS.JString (user_id u));
        ("tripId", JS.JNumber (trip_id t <? 0)
                              (JS.mkDecimal (Z.abs (trip_id t)) 0)) ].
Proof.
  intros H. unfold joinMessage, JS.stringify_object. cbn [JS.stringify].
  rewrite (number_of_Z_safe _ H), sign_of_integer. reflexivity.
Qed.

Lemma receive_joinMessage (h : Z) (u : User) (t : TripWithDetails)
    (r : Registry.State) :
  Z.abs (trip_id t) <= 2 ^ 53 - 1 ->
  Registry.receive h (joinMessage u t) r
  = Registry.join h (user_id u) (trip_id t) r.
Proof.
  intros H. rewrite (joinMessage_safe u t H).
  unfold Registry.receive.
  change (JS.get "type" _) with (Some (JS.JString "join_trip")).
  change (JS.get "userId" _) with (Some (JS.JString (user_id u))).
  change (JS.get "tripId" _)
    with (Some (JS.JNumber (trip_id t <? 0) (JS.mkDecimal (Z.abs (trip_id t)) 0))).
  cbv beta iota. rewrite integerOf_integer. reflexivity.
Qed.

Lemma deliverySet_join (h : Z) (m : string) (g g' : Z) (r : Registry.State) :
  h ∈ Registry.deliverySet g' (Registry.join h m g r) <-> g' = g.
Proof.
  unfold Registry.deliverySet, Registry.join, Registry.State in *.
  rewrite elem_of_dom. unfold is_Some.
  split.
  - intros [x Hx]. apply map_lookup_filter_Some in Hx as [Hx Hp].
    rewrite lookup_insert_eq in Hx. injection Hx as <-. simpl in Hp. congruence.
  - intros ->. exists (m, g). apply map_lookup_filter_Some.
    split; [apply lookup_insert_eq | reflexivity].
Qed.

Lemma joinMessage_members (u : User) (t : TripWithDetails) :
  JS.get "type" (joinMessage u t) = Some (JS.JString "join_trip")
  /\ JS.get "userId" (joinMessage u t) = Some (JS.JString (user_id u))
  /\ JS.get "tripId" (joinMessage u t)
     = JS.stringify (JS.VNumber (JS.number_of_Z (trip_id t))).
Proof.
  unfold joinMessage, JS.stringify_object. cbn [JS.stringify].
  destruct (JS.number_of_Z (trip_id t)); repeat split.
Qed.

(** C7. On a page that had no socket, whatever happens next, the socket the
    page holds was opened for the page's user and trip; nothing is sent on
    it before it opens, the opening itself sends the join message, and the
    join message is the only message ever sent, hence the first.  The join
    message carries [type = "join_trip"], the user's id and the trip's id;
    handed to the registry of the specification it registers the session
    for the delivery set of that trip and of no other group. *)
Theorem C7_first_message_is_join :
  forall (p : Page) (es : list Event) (c : Connection),
    pg_socket p = None ->
    pg_socket (run p es) = Some c ->
    pg_user p = Some (conn_user c)
    /\ trip p = Some (conn_trip c)
    /\ (sent c = [] \/ sent c = [joinMessage (conn_user c) (conn_trip c)])
    /\ (readyState c = OPEN ->
        sent c = [joinMessage (conn_user c) (conn_trip c)])
    /\ (readyState c = CONNECTING ->
        since (run p es) (step (run p es) SocketOpened)
        = [SocketSend (joinMessage (conn_user c) (conn_trip c))])
    /\ JS.get "type" (joinMessage (conn_user c) (conn_trip c))
       = Some (JS.JString "join_trip")
    /\ JS.get "userId" (joinMessage (conn_user c) (conn_trip c))
       = Some (JS.JString (user_id (conn_user c)))
    /\ JS.get "tripId" (joinMessage (conn_user c) (conn_trip c))
       = JS.stringify (JS.VNumber (JS.number_of_Z (trip_id (conn_trip c))))
    /\ (Z.abs (trip_id (conn_trip c)) <= 2 ^ 53 - 1 ->
        forall (h : Z) (r : Registry.State) (g : Z),
          h ∈ Registry.deliverySet g
                (Registry.receive h (joinMessage (conn_user c) (conn_trip c)) r)
          <-> g = trip_id (conn_trip c)).
Proof.
  intros p es c Hnone Hc.
  assert (Hinv : socketInvariant (run p es)).
  { apply socketInvariant_run. unfold socketInvariant. rewrite Hnone. exact I. }
  unfold socketInvariant in Hinv. rewrite Hc in Hinv.
  destruct Hinv as (Hu & Ht & Hsent).
  destruct (run_static es p) as [Eu Et]. rewrite Eu in Hu. rewrite Et in Ht.
  destruct (joinMessage_members (conn_user c) (conn_trip c)) as (J1 & J2 & J3).
  repeat (split; [assumption|]).
  split; [destruct (readyState c); auto|].
  split; [intros Ho; rewrite Ho in Hsent; exact Hsent|].
  split.
  { intros Hconn. apply since_log. simpl. rewrite Hc, Hconn. reflexivity. }
  repeat (split; [assumption|]).
  intros Hsafe h r g. rewrite (receive_joinMessage h _ _ r Hsafe).
  apply deliverySet_join.
Qed.

Lemma C7_witness :
  exists c, pg_socket Sample.connected = Some c
            /\ sent c = [joinMessage Sample.X (mkTrip 5)]
            /\ 1 ∈ Registry.deliverySet 5
                     (Registry.receive 1 (joinMessage Sample.X (mkTrip 5)) ∅).
Proof.
  eexists. split; [reflexivity|].
  destruct (C7_first_message_is_join Sample.page [EffectRun; SocketOpened] _
              eq_refl eq_refl) as (_ & _ & _ & Hopen & _ & _ & _ & _ & Hreg).
  split.
  - apply Hopen. reflexivity.
  - apply Hreg; [simpl; lia | reflexivity].
Defined.

(** C6 (as the code has it). A drop of the connection makes the page do
    nothing: no handler is registered for [close] or [error], so no effect
    is logged and the cache stays as it is.  Along every sequence of events
    a socket is opened only by a run of the effect that finds a trip and a
    user (the page does not reconnect otherwise); and along every sequence
    without change events the activities list is fetched again only when an
    accept or a decline succeeded, so that reconnecting fetches nothing. *)
Theorem C6_no_reconnect_no_resync :
  forall (p : Page) (es : list Event),
    since p (step p SocketClosed) = []
    /\ pg_cache (step p SocketClosed) = pg_cache p
    /\ step p SocketErrored = p
    /\ opensSocket (since p (run p es)) = existsb isEffectRun es && ready p
    /\ (existsb isMessage es = false ->
        refetchesActivities (pg_id p) (since p (run p es)) = existsb isSuccess es).
Proof.
  intros p es.
  split; [|split; [|split; [reflexivity|]]].
  - apply since_log. simpl. destruct (pg_socket p); simpl;
      symmetry; apply app_nil_r.
  - simpl. destruct (pg_socket p); reflexivity.
  - destruct (run_log es p) as (l & Hl & Ho & Hr).
    rewrite (since_log _ _ _ Hl). split; [assumption | intros _; assumption].
Qed.

Lemma C6_witness :
  refetchesActivities "5"
    (since Sample.connected
       (run Sample.connected [SocketClosed; EffectRun; SocketOpened]))
  = false.
Proof.
  apply (C6_no_reconnect_no_resync Sample.connected
           [SocketClosed; EffectRun; SocketOpened]).
  reflexivity.
Defined.

(** C6, the claim as stated, fails on the page of member X once its socket
    is open and then drops.  With no run of the effect the page never opens
    a socket again, whatever else happens; and when the effect does run
    again, the page closes the old socket, opens a new one and sends the
    join message on it, and does not fetch the list. *)
Lemma C6_counterexample :
  resyncPolicy "5"
    (since Sample.connected
       (run Sample.connected
            [SocketClosed; SocketErrored; Accept 1 (Response false None)]))
  = false
  /\ opensSocket
       (since Sample.connected
          (run Sample.connected
               [SocketClosed; SocketErrored; Accept 1 (Response false None)]))
     = false
  /\ since Sample.connected
       (run Sample.connected [SocketClosed; EffectRun; SocketOpened])
     = [ SocketClose;
         NewWebSocket "wss://trips.example/ws";
         SocketSend (joinMessage Sample.X (mkTrip 5)) ]
  /\ resyncPolicy "5"
       (since Sample.connected
          (run Sample.connected [SocketClosed; EffectRun; SocketOpened]))
     = false.
Proof. repeat split. Qed.

(** ** The store of the specification *)

Section ListFacts.
Context {A B : Type}.

Lemma find_app_split (f : A -> bool) (l l' : list A) :
  List.find f (l ++ l')
  = match List.find f l with
    | Some x => Some x
    | None => List.find f l'
    end.
Proof.
  induction l as [|x l IH]; simpl; [reflexivity|].
  destruct (f x); [reflexivity | exact IH].
Qed.

Lemma find_filter_same (f g : A -> bool) (l : list A) :
  (forall x, f x = true -> g x = true) ->
  List.find f (List.filter g l) = List.find f l.
Proof.
  intros H. induction l as [|x l IH]; simpl; [reflexivity|].
  destruct (g x) eqn:Eg; simpl.
  - destruct (f x); [reflexivity | exact IH].
  - destruct (f x) eqn:Ef; [|exact IH].
    apply H in Ef. congruence.
Qed.

Lemma NoDup_map_filter (f : A -> B) (P : A -> bool) (l : list A) :
  NoDup (map f l) -> NoDup (map f (List.filter P l)).
Proof.
  induction l as [|x l IH]; simpl; intros H; [constructor|].
  apply NoDup_cons in H as [Hx Hl].
  destruct (P x); simpl; [|auto].
  apply NoDup_cons. split; [|auto].
  intros Hin. apply Hx.
  apply list_elem_of_In in Hin. apply list_elem_of_In.
  apply in_map_iff in Hin as (y & Hy & Hiny).
  apply in_map_iff. exists y. split; [exact Hy|].
  apply filter_In in Hiny. tauto.
Qed.

Lemma NoDup_list_filter (P : A -> bool) (l : list A) :
  NoDup l -> NoDup (List.filter P l).
Proof.
  induction l as [|x l IH]; simpl; intros H; [constructor|].
  apply NoDup_cons in H as [Hx Hl].
  destruct (P x); [|auto].
  apply NoDup_cons. split; [|auto].
  intros Hin. apply Hx. apply list_elem_of_In in Hin.
  apply list_elem_of_In. apply filter_In in Hin. tauto.
Qed.

Lemma NoDup_omap_inj (f : A -> option B) (l : list A) :
  NoDup l ->
  (forall x y z, x ∈ l -> y ∈ l -> f x = Some z -> f y = Some z -> x = y) ->
  NoDup (omap f l).
Proof.
  induction l as [|x l IH]; simpl; intros Hnd Hinj; [constructor|].
  apply NoDup_cons in Hnd as [Hx Hl].
  assert (Htl : NoDup (omap f l)).
  { apply IH; [exact Hl|]. intros a b z Ha Hb. apply Hinj; right; assumption. }
  destruct (f x) as [z|] eqn:Ez; [|exact Htl].
  apply NoDup_cons. split; [|exact Htl].
  intros Hin. apply list_elem_of_omap in Hin as (y & Hy & Hfy).
  assert (x = y) by (apply (Hinj x y z); [left | right | |]; auto).
  subst y. contradiction.
Qed.

End ListFacts.

Lemma find_by_id_Some (a : Z) (l : list Store.Activity) (act : Store.Activity) :
  List.find (fun x => Store.id x =? a) l = Some act ->
  In act l /\ Store.id act = a.
Proof.
  intros H. apply find_some in H as [Hin Heq].
  split; [exact Hin | apply Z.eqb_eq, Heq].
Qed.

Lemma find_by_id_unique (l : list Store.Activity) (act : Store.Activity) :
  NoDup (map Store.id l) -> In act l ->
  List.find (fun x => Store.id x =? Store.id act) l = Some act.
Proof.
  induction l as [|x l IH]; simpl; intros Hnd Hin; [contradiction|].
  apply NoDup_cons in Hnd as [Hx Hl].
  destruct Hin as [->|Hin]; [rewrite Z.eqb_refl; reflexivity|].
  destruct (Z.eqb_spec (Store.id x) (Store.id act)) as [E|_]; [|auto].
  exfalso. apply Hx. rewrite E. apply list_elem_of_In, in_map, Hin.
Qed.

Lemma wellFormed_empty : Store.wellFormed Store.empty.
Proof.
  unfold Store.wellFormed, Store.empty; simpl.
  split; [constructor|]. split; [intros act []|].
  intros a m v H. rewrite lookup_empty in H. discriminate.
Qed.

Lemma wellFormed_joinGroup (g : Z) (m : string) (s : Store.State) :
  Store.wellFormed s -> Store.wellFormed (Store.joinGroup g m s).
Proof.
  intros (H1 & H2 & H3). unfold Store.wellFormed; simpl.
  split; [exact H1|]. split; [exact H2|].
  intros a m' v Hv. destruct (H3 a m' v Hv) as (act & Ha & Hm).
  exists act. split; [exact Ha|]. set_solver.
Qed.

Lemma wellFormed_leaveGroup (g : Z) (m : string) (s : Store.State) :
  Store.wellFormed s -> Store.wellFormed (Store.leaveGroup g m s).
Proof.
  intros (H1 & H2 & H3). unfold Store.wellFormed; simpl.
  split; [exact H1|]. split; [exact H2|].
  intros a m' v Hv. apply map_lookup_filter_Some in Hv as [Hv Hkeep].
  simpl in Hkeep.
  destruct (H3 a m' v Hv) as (act & Ha & Hm).
  exists act. split; [exact Ha|].
  apply elem_of_difference. split; [exact Hm|].
  intros Heq%elem_of_singleton. injection Heq as Hg Hm'.
  apply Hkeep. split; [exact Hm'|].
  unfold Store.groupOf. change (Store.findActivity a s) with
    (List.find (fun x => Store.id x =? a) (Store.activities s)) in *.
  unfold Store.findActivity in Ha. rewrite Ha. simpl. congruence.
Qed.

Lemma wellFormed_create (g : Z) (pr : string) (f : Store.Fields) (now : Z)
    (s : Store.State) (act : Store.Activity) (s' : Store.State) :
  Store.wellFormed s ->
  Store.createActivity g pr f now s = inr (act, s') ->
  Store.wellFormed s'.
Proof.
  intros (H1 & H2 & H3) Hc. unfold Store.createActivity in Hc.
  destruct (Store.f_name f) as [n|]; [|discriminate].
  destruct (Store.f_startTime f) as [t|]; [|discriminate].
  injection Hc as <- <-. unfold Store.wellFormed; simpl.
  split; [|split].
  - rewrite map_app. apply NoDup_app. split; [exact H1|]. split.
    + intros x Hx Hx'. simpl in Hx'. apply list_elem_of_In in Hx'.
      destruct Hx' as [<-|[]]. apply list_elem_of_In in Hx.
      apply in_map_iff in Hx as (y & Hy & Hin). apply H2 in Hin. lia.
    + simpl. apply NoDup_singleton.
  - intros act Hin. apply in_app_iff in Hin as [Hin|[<-|[]]].
    + apply H2 in Hin. lia.
    + simpl. lia.
  - intros a m v Hv. destruct (H3 a m v Hv) as (act & Ha & Hm).
    exists act. split; [|exact Hm].
    unfold Store.findActivity in *; simpl. rewrite find_app_split, Ha.
    reflexivity.
Qed.

Lemma wellFormed_respond (a : Z) (m : string) (acc : bool) (now : Z)
    (s : Store.State) (r : Store.Response) (s' : Store.State) :
  Store.wellFormed s ->
  Store.recordResponse a m acc now s = inr (r, s') ->
  Store.wellFormed s'.
Proof.
  intros (H1 & H2 & H3) Hr. unfold Store.recordResponse in Hr.
  destruct (Store.findActivity a s) as [act|] eqn:Ha; [|discriminate].
  destruct (bool_decide _) eqn:Hm; [|discriminate].
  apply bool_decide_eq_true in Hm.
  injection Hr as <- <-. unfold Store.wellFormed; simpl.
  split; [exact H1|]. split; [exact H2|].
  intros a' m' v Hv.
  destruct (decide ((a, m) = (a', m'))) as [E|NE].
  - injection E as <- <-. exists act. split; [exact Ha | exact Hm].
  - rewrite lookup_insert_ne in Hv by exact NE. exact (H3 a' m' v Hv).
Qed.

Lemma wellFormed_delete (a : Z) (s : Store.State) :
  Store.wellFormed s -> Store.wellFormed (Store.deleteActivity a s).
Proof.
  intros (H1 & H2 & H3). unfold Store.wellFormed; simpl.
  split; [|split].
  - apply NoDup_map_filter, H1.
  - intros act Hin. apply filter_In in Hin as [Hin _]. apply H2, Hin.
  - intros a' m v Hv. apply map_lookup_filter_Some in Hv as [Hv Hne].
    simpl in Hne. destruct (H3 a' m v Hv) as (act & Ha & Hm).
    exists act. split; [|exact Hm].
    unfold Store.findActivity in *; simpl.
    rewrite find_filter_same; [exact Ha|].
    intros x Hx. apply Z.eqb_eq in Hx. rewrite Hx.
    apply negb_true_iff, Z.eqb_neq, Hne.
Qed.

Lemma wellFormed_apply (s : Store.State) (o : Store.Op) :
  Store.wellFormed s -> Store.wellFormed (Store.apply s o).
Proof.
  intros H. destruct o as [g m|g m|g pr f now|a m acc now|a]; simpl.
  - apply wellFormed_joinGroup, H.
  - apply wellFormed_leaveGroup, H.
  - destruct (Store.createActivity g pr f now s) as [e|[act s']] eqn:E;
      [exact H | exact (wellFormed_create _ _ _ _ _ _ _ H E)].
  - destruct (Store.recordResponse a m acc now s) as [e|[r s']] eqn:E;
      [exact H | exact (wellFormed_respond _ _ _ _ _ _ _ H E)].
  - apply wellFormed_delete, H.
Qed.

Lemma wellFormed_run (ops : list Store.Op) : Store.wellFormed (Store.run ops).
Proof.
  unfold Store.run.
  assert (G : forall s, Store.wellFormed s ->
                        Store.wellFormed (fold_left Store.apply ops s)).
  { induction ops as [|o ops IH]; intros s H; [exact H|].
    simpl. apply IH, wellFormed_apply, H. }
  apply G, wellFormed_empty.
Qed.

Lemma listResponses_spec (a : Z) (s : Store.State) (r : Store.Response) :
  r ∈ Store.listResponses a s
  <-> Store.activityId r = a
      /\ Store.responses s !! (a, Store.memberId r)
         = Some (Store.accepted r, Store.timestamp r).
Proof.
  unfold Store.listResponses. rewrite list_elem_of_omap. split.
  - intros ([[a' m] [acc ts]] & Hin & Hf). simpl in Hf.
    destruct (Z.eqb_spec a' a) as [->|]; [|discriminate].
    injection Hf as <-. simpl. split; [reflexivity|].
    apply elem_of_map_to_list, Hin.
  - intros [Ha Hl]. destruct r as [a' m acc ts]; simpl in *. subst a'.
    exists ((a, m), (acc, ts)). split; [apply elem_of_map_to_list, Hl|].
    simpl. rewrite Z.eqb_refl. reflexivity.
Qed.

Lemma NoDup_listResponses_members (a : Z) (s : Store.State) :
  NoDup (map Store.memberId (Store.listResponses a s)).
Proof.
  unfold Store.listResponses.
  change (NoDup (Store.memberId <$>
            omap (fun kv : (Z * string) * (bool * Z) =>
                    if kv.1.1 =? a
                    then Some (Store.mkResponse kv.1.1 kv.1.2 kv.2.1 kv.2.2)
                    else None)
                 (map_to_list (Store.responses s)))).
  rewrite list_fmap_omap. apply NoDup_omap_inj; [apply NoDup_map_to_list|].
  intros [[a1 m1] v1] [[a2 m2] v2] z H1 H2; simpl.
  destruct (Z.eqb_spec a1 a) as [->|]; [|discriminate].
  destruct (Z.eqb_spec a2 a) as [->|]; [|discriminate].
  simpl. intros [= <-] [= <-].
  apply elem_of_map_to_list in H1, H2. congruence.
Qed.

Lemma members_spec (g : Z) (m : string) (s : Store.State) :
  m ∈ Store.members g s <-> (g, m) ∈ Store.membership s.
Proof.
  unfold Store.members. rewrite list_elem_of_omap. split.
  - intros ([g' m'] & Hin & Hf). simpl in Hf.
    destruct (Z.eqb_spec g' g) as [->|]; [|discriminate].
    injection Hf as ->. apply elem_of_elements, Hin.
  - intros H. exists (g, m). split; [apply elem_of_elements, H|].
    simpl. rewrite Z.eqb_refl. reflexivity.
Qed.

Lemma NoDup_members (g : Z) (s : Store.State) : NoDup (Store.members g s).
Proof.
  unfold Store.members. apply NoDup_omap_inj; [apply NoDup_elements|].
  intros [g1 m1] [g2 m2] z _ _; simpl.
  destruct (Z.eqb_spec g1 g) as [->|]; [|discriminate].
  destruct (Z.eqb_spec g2 g) as [->|]; [|discriminate].
  congruence.
Qed.

(** [isMineAccepted] of the derived view, read on the store. *)
Lemma isMineAccepted_spec (act : Store.Activity) (m : string) (s : Store.State) :
  Store.isMineAccepted
    (Store.deriveView act (Store.listResponses (Store.id act) s) m) = true
  <-> exists ts, Store.responses s !! (Store.id act, m) = Some (true, ts).
Proof.
  unfold Store.deriveView; simpl. rewrite existsb_exists. split.
  - intros (r & Hin & Hr). apply andb_prop in Hr as [Hm Hacc].
    apply bool_decide_eq_true in Hm.
    apply list_elem_of_In, listResponses_spec in Hin as [_ Hl].
    rewrite Hm, Hacc in Hl. eauto.
  - intros [ts Hl].
    exists (Store.mkResponse (Store.id act) m true ts). split.
    + apply list_elem_of_In, listResponses_spec. simpl. auto.
    + simpl. rewrite andb_true_r. apply bool_decide_eq_true. reflexivity.
Qed.

(** ** Recording a response *)

Lemma recordResponse_inr (a : Z) (m : string) (acc : bool) (now : Z)
    (s : Store.State) (r : Store.Response) (s' : Store.State) :
  Store.recordResponse a m acc now s = inr (r, s') ->
  r = Store.mkResponse a m acc now
  /\ Store.responses s' = <[(a, m) := (acc, now)]> (Store.responses s)
  /\ Store.activities s' = Store.activities s
  /\ Store.membership s' = Store.membership s.
Proof.
  unfold Store.recordResponse.
  destruct (Store.findActivity a s); [|discriminate].
  destruct (bool_decide _); [|discriminate].
  intros [= <- <-]. repeat split.
Qed.

Lemma recordResponse_again (a : Z) (m : string) (acc acc' : bool) (now now' : Z)
    (s : Store.State) (r : Store.Response) (s' : Store.State) :
  Store.recordResponse a m acc now s = inr (r, s') ->
  exists r' s'', Store.recordResponse a m acc' now' s' = inr (r', s'').
Proof.
  intros H. pose proof (recordResponse_inr _ _ _ _ _ _ _ H) as (_ & _ & Ha & Hm).
  unfold Store.recordResponse, Store.findActivity in *. rewrite Ha, Hm.
  destruct (List.find _ (Store.activities s)); [|discriminate].
  destruct (bool_decide _); [|discriminate].
  eauto.
Qed.

(** C4 (as the code and the specification have it). In the store of the
    specification [recordResponse] upserts the (activityId, memberId) pair
    for an accept as for a decline; a decline recorded after an accept
    succeeds, leaves a Response with accepted = false under that pair and
    leaves the number of Responses and all other Responses as they were.
    The client submits an accept as [POST /api/activities/{id}/accept] and
    a decline as [DELETE] on the same path, both without a body. *)
Theorem C4_upsert_and_requests :
  (forall a m acc now s r s',
      Store.recordResponse a m acc now s = inr (r, s') ->
      r = Store.mkResponse a m acc now
      /\ Store.responses s' = <[(a, m) := (acc, now)]> (Store.responses s))
  /\ (forall a m t1 t2 s r1 s1,
         Store.recordResponse a m true t1 s = inr (r1, s1) ->
         exists r2 s2,
           Store.recordResponse a m false t2 s1 = inr (r2, s2)
           /\ Store.accepted r2 = false
           /\ Store.responses s2 !! (a, m) = Some (false, t2)
           /\ size (Store.responses s2) = size (Store.responses s1)
           /\ (forall k, k <> (a, m) ->
                 Store.responses s2 !! k = Store.responses s1 !! k))
  /\ (forall activityId,
         mutationRequest acceptActivityMutation activityId
         = mkRequest "POST" ("/api/activities/" +:+ pretty activityId +:+ "/accept")
                     [] "include" None
         /\ mutationRequest declineActivityMutation activityId
            = mkRequest "DELETE"
                        ("/api/activities/" +:+ pretty activityId +:+ "/accept")
                        [] "include" None).
Proof.
  split; [|split].
  - intros a m acc now s r s' H.
    destruct (recordResponse_inr _ _ _ _ _ _ _ H) as (H1 & H2 & _). auto.
  - intros a m t1 t2 s r1 s1 H1.
    destruct (recordResponse_again a m true false t1 t2 s r1 s1 H1)
      as (r2 & s2 & H2).
    exists r2, s2. split; [exact H2|].
    destruct (recordResponse_inr _ _ _ _ _ _ _ H1) as (_ & E1 & _).
    destruct (recordResponse_inr _ _ _ _ _ _ _ H2) as (-> & E2 & _).
    split; [reflexivity|]. rewrite E2. split; [apply lookup_insert_eq|]. split.
    + apply map_size_insert_Some. rewrite E1, lookup_insert_eq. eauto.
    + intros k Hk. apply lookup_insert_ne. congruence.
  - intros activityId. split; reflexivity.
Qed.

Lemma C4_witness :
  exists r2 s2,
    Store.recordResponse 1 "member-y" false 130
      (Store.run (take 5 Sample.history)) = inr (r2, s2)
    /\ Store.responses s2 !! (1, "member-y") = Some (false, 130).
Proof.
  destruct (proj1 (proj2 C4_upsert_and_requests)
              1 "member-y" 120 130 (Store.run (take 4 Sample.history))
              (Store.mkResponse 1 "member-y" true 120)
              (Store.run (take 5 Sample.history)))
    as (r2 & s2 & H2 & _ & Hl & _).
  - vm_compute. reflexivity.
  - exists r2, s2. split; [exact H2 | exact Hl].
Defined.

(** C4, the claim as stated, fails for the decline of activity 7: the
    request the client submits is not the request of an accept, but a
    [DELETE] of the accept resource, and it carries no stance. *)
Lemma C4_counterexample :
  mutationRequest declineActivityMutation 7
  = mkRequest "DELETE" "/api/activities/7/accept" [] "include" None
  /\ mutationRequest acceptActivityMutation 7
     = mkRequest "POST" "/api/activities/7/accept" [] "include" None
  /\ req_method (mutationRequest declineActivityMutation 7)
     <> req_method (mutationRequest acceptActivityMutation 7).
Proof. repeat split. discriminate. Qed.

(** ** The personal schedule of a page and the responses of the store *)

Lemma holdsAccepted_spec (a : Z) (m : string) (s : Store.State) :
  Session.holdsAccepted a m s = true
  <-> exists ts, Store.responses s !! (a, m) = Some (true, ts).
Proof.
  unfold Session.holdsAccepted.
  destruct (Store.responses s !! (a, m)) as [[[|] ts]|]; split;
    try discriminate; try reflexivity; eauto.
  - intros [ts' H]. discriminate H.
  - intros [ts' H]. discriminate H.
Qed.

(** A page that holds the list the store derives for its member shows an
    activity on the personal schedule only if the member holds an accepted
    response to it, and shows every activity of the group the member
    accepted. *)
Lemma fresh_onSchedule (g : Z) (m : string) (s : Store.State) (p : Page)
    (a : Z) (act : Store.Activity) :
  Store.wellFormed s ->
  Store.findActivity a s = Some act ->
  activities p = Some (Store.activitiesFor g m s) ->
  (Session.onSchedule a p = true -> Session.holdsAccepted a m s = true)
  /\ (Store.groupId act = g -> pg_user p <> None ->
      Session.holdsAccepted a m s = true -> Session.onSchedule a p = true).
Proof.
  intros (Hnd & _ & _) Hfind Hfresh.
  apply find_by_id_Some in Hfind as [Hin Hid].
  unfold Session.onSchedule, view, getMySchedule.
  cbn [TripPage.activities TripPage.user]. rewrite Hfresh.
  rewrite holdsAccepted_spec, <- Hid, <- isMineAccepted_spec.
  split.
  - destruct (pg_user p); [|discriminate].
    rewrite existsb_exists. intros (x & Hx & Hxa). apply Z.eqb_eq in Hxa.
    apply filter_In in Hx as [Hx Htruthy].
    unfold Store.activitiesFor in Hx.
    apply in_map_iff in Hx as (act' & <- & Hact').
    apply filter_In in Hact' as [Hact' _]. simpl in Hxa.
    unfold Store.toClient in Htruthy. cbn [Schema.act_isAccepted] in Htruthy.
    assert (act' = act).
    { pose proof (find_by_id_unique _ _ Hnd Hact') as F1.
      pose proof (find_by_id_unique _ _ Hnd Hin) as F2.
      rewrite Hxa in F1. congruence. }
    subst act'. apply truthy_flag_true in Htruthy. congruence.
  - intros Hg Hu Hmine. destruct (pg_user p); [|congruence].
    rewrite existsb_exists.
    exists (Store.toClient
              (Store.deriveView act (Store.listResponses (Store.id act) s) m)).
    split; [|apply Z.eqb_refl].
    apply filter_In. split.
    + unfold Store.activitiesFor. apply in_map_iff. exists act.
      split; [reflexivity|]. apply filter_In. split; [exact Hin|].
      apply Z.eqb_eq, Hg.
    + unfold Store.toClient. cbn [Schema.act_isAccepted]. rewrite Hmine.
      reflexivity.
Qed.

Lemma length_filter_map {A B : Type} (f : A -> B) (P : B -> bool) (l : list A) :
  List.length (List.filter P (map f l))
  = List.length (List.filter (fun x => P (f x)) l).
Proof.
  induction l as [|x l IH]; simpl; [reflexivity|].
  destruct (P (f x)); simpl; rewrite IH; reflexivity.
Qed.

(** When every member of the group has a page that holds the list the
    store derives for that member, the number of pages that show an
    activity on the personal schedule is the number of accepted Responses
    to it. *)
Lemma fresh_pages_count (s : Store.State) (a : Z) (act : Store.Activity)
    (pageOf : string -> Page) :
  Store.wellFormed s ->
  Store.findActivity a s = Some act ->
  (forall m, activities (pageOf m)
             = Some (Store.activitiesFor (Store.groupId act) m s)
             /\ pg_user (pageOf m) <> None) ->
  Session.scheduleCount a (map pageOf (Store.members (Store.groupId act) s))
  = Store.acceptedCount a s.
Proof.
  intros Hwf Hfind Hpages. unfold Session.scheduleCount, Store.acceptedCount.
  rewrite length_filter_map.
  rewrite <- (length_map Store.memberId
                (List.filter Store.accepted (Store.listResponses a s))).
  apply Permutation_length, NoDup_Permutation.
  - apply NoDup_list_filter, NoDup_members.
  - apply NoDup_map_filter, NoDup_listResponses_members.
  - intros m. rewrite !list_elem_of_In, filter_In, in_map_iff.
    destruct (Hpages m) as [Hfresh Huser].
    destruct (fresh_onSchedule (Store.groupId act) m s (pageOf m) a act
                Hwf Hfind Hfresh) as [Hsound Hcomplete].
    split.
    + intros [_ Hshown]. apply Hsound, holdsAccepted_spec in Hshown as [ts Hl].
      exists (Store.mkResponse a m true ts).
      split; [reflexivity|]. apply filter_In. split; [|reflexivity].
      apply list_elem_of_In, listResponses_spec. simpl. auto.
    + intros (r & Hm & Hr). apply filter_In in Hr as [Hr Hacc].
      apply list_elem_of_In, listResponses_spec in Hr as [_ Hl].
      rewrite Hm, Hacc in Hl. split.
      * destruct Hwf as (_ & _ & H3).
        destruct (H3 _ _ _ Hl) as (act' & Hf' & Hmem).
        apply list_elem_of_In, members_spec. congruence.
      * apply Hcomplete; [reflexivity | exact Huser |].
        apply holdsAccepted_spec. eauto.
Qed.

(** No fetch is due on a settled page, and the invalidation of the message
    handler makes none due. *)
Lemma refetch_settled (g : Z) (m : string) (s : Store.State) (id : string)
    (c : QueryCache) :
  forallb (fun q => negb (isInvalidated q
                          && bool_decide (queryKey q = activitiesKey id))) c
  = true ->
  map (Session.refetch g m s id) c = c
  /\ map (Session.refetch g m s id) (invalidateQueries (liveKey id) c)
     = invalidateQueries (liveKey id) c.
Proof.
  induction c as [|q c IH]; [split; reflexivity|].
  cbn [forallb]. intros H. apply andb_prop in H as [Hq Hc].
  destruct (IH Hc) as [IH1 IH2]. apply negb_true_iff in Hq.
  split.
  - cbn [map]. rewrite IH1. unfold Session.refetch. rewrite Hq. reflexivity.
  - unfold invalidateQueries in *. cbn [map]. rewrite IH2. f_equal.
    unfold Session.refetch.
    destruct (decide (queryKey q = activitiesKey id)) as [Hk|Hk].
    + assert (Hno : partialMatchKey (queryKey q) (liveKey id) = false).
      { rewrite Hk, <- (app_nil_r (activitiesKey id)).
        apply activitiesKey_not_live. }
      rewrite Hno, Hq. reflexivity.
    + rewrite queryKey_invalidate_cond.
      rewrite (bool_decide_false _ Hk), andb_false_r. reflexivity.
Qed.

Lemma settled_invalidate_live (id : string) (c : QueryCache) :
  forallb (fun q => negb (isInvalidated q
                          && bool_decide (queryKey q = activitiesKey id)))
          (invalidateQueries (liveKey id) c)
  = forallb (fun q => negb (isInvalidated q
                            && bool_decide (queryKey q = activitiesKey id))) c.
Proof.
  induction c as [|q c IH]; [reflexivity|].
  unfold invalidateQueries in *. cbn [map forallb]. rewrite IH. f_equal.
  destruct (decide (queryKey q = activitiesKey id)) as [Hk|Hk].
  - assert (Hno : partialMatchKey (queryKey q) (liveKey id) = false).
    { rewrite Hk, <- (app_nil_r (activitiesKey id)).
      apply activitiesKey_not_live. }
    rewrite Hno. reflexivity.
  - rewrite queryKey_invalidate_cond, (bool_decide_false _ Hk),
      !andb_false_r. reflexivity.
Qed.

Lemma set_cache_same (p : Page) : set_cache (pg_cache p) p = p.
Proof. destruct p; reflexivity. Qed.

(** A message of the socket leaves a settled page settled: the fetch of
    the activities list does not become due. *)
Lemma settle_after_message (g : Z) (m : string) (s : Store.State) (p : Page)
    (message : JS.json) :
  Session.settled p = true ->
  Session.settle g m s (step p (SocketMessage message))
  = step p (SocketMessage message).
Proof.
  intros H. unfold Session.settled in H.
  destruct (refetch_settled g m s (pg_id p) (pg_cache p) H) as [H1 H2].
  unfold Session.settle.
  destruct (step_message_cases p message) as [-> | ->].
  - rewrite H1. apply set_cache_same.
  - cbn [invalidateQueriesOn log set_cache pg_id pg_cache]. rewrite H2.
    reflexivity.
Qed.

(** Once the activities key is invalidated, the fetch that is due brings
    the list of the store into the cache. *)
Lemma getQueryData_refetched (g : Z) (m : string) (s : Store.State)
    (id : string) (c : QueryCache) (d : QueryData) :
  getQueryData (activitiesKey id) c = Some d ->
  getQueryData (activitiesKey id)
    (map (Session.refetch g m s id) (invalidateQueries (activitiesKey id) c))
  = Some (Session.fetchActivities g m s).
Proof.
  induction c as [|q c IH]; [discriminate|].
  unfold invalidateQueries in *. cbn [map getQueryData].
  destruct (decide (queryKey q = activitiesKey id)) as [Hk|Hk].
  - intros _.
    assert (Hpm : partialMatchKey (queryKey q) (activitiesKey id) = true)
      by (rewrite Hk; apply partialMatchKey_refl).
    rewrite Hpm. unfold Session.refetch.
    cbn [invalidate isInvalidated queryKey].
    rewrite (bool_decide_true _ Hk). cbn [andb queryKey data].
    rewrite (bool_decide_true _ Hk). reflexivity.
  - rewrite (bool_decide_false _ Hk). intros H.
    remember (if partialMatchKey (queryKey q) (activitiesKey id)
              then invalidate q else q) as q' eqn:Eq'.
    assert (Hq' : queryKey q' = queryKey q)
      by (subst q'; apply queryKey_invalidate_cond).
    assert (Hr : Session.refetch g m s id q' = q').
    { unfold Session.refetch.
      rewrite Hq', (bool_decide_false _ Hk), andb_false_r. reflexivity. }
    rewrite Hr, Hq', (bool_decide_false _ Hk). apply IH, H.
Qed.

(** C3 (what the code does). A member whose page shows an activity on the
    personal schedule declines it through another session, the store
    records the decline, and the change event reaches the page.  Every
    response has settled and no fetch is due, yet the page shows what it
    showed: the activity is still on the personal schedule while the
    member holds no accepted Response, because the invalidation of the
    message handler reaches no query.  The schedule is the part of the
    list the page holds whose [isAccepted] flag is true; the same decline
    made on the page itself invalidates the key the list was fetched with,
    and the page then holds the list of the store and shows the activity
    no longer. *)
Theorem C3_remote_change_leaves_schedule_stale :
  forall (g : Z) (m : string) (w : Session.World) (a now : Z)
         (r : Store.Response) (s' : Store.State) (k : ChangeKind),
    Session.settled (Session.client w) = true ->
    Session.onSchedule a (Session.client w) = true ->
    Store.recordResponse a m false now (Session.server w) = inr (r, s') ->
    let w' := Session.run g m w
                [ Session.Elsewhere (Store.OpRespond a m false now);
                  Session.Deliver (changeEvent g a k) ] in
    Session.server w' = s'
    /\ Store.responses s' !! (a, m) = Some (false, now)
    /\ Session.holdsAccepted a m (Session.server w') = false
    /\ Session.settled (Session.client w') = true
    /\ view (Session.client w') = view (Session.client w)
    /\ Session.onSchedule a (Session.client w') = true
    /\ (forall acts,
          activities (Session.client w) = Some acts ->
          let w2 := Session.step g m w (Session.Respond a false now) in
          (pg_user (Session.client w) <> None ->
           getMySchedule (view (Session.client w))
           = List.filter (fun x => JS.truthy_flag (act_isAccepted x)) acts)
          /\ Session.server w2 = s'
          /\ activities (Session.client w2) = Some (Store.activitiesFor g m s')
          /\ (Store.wellFormed (Session.server w) ->
              Session.onSchedule a (Session.client w2) = false)).
Proof.
  intros g m w a now r s' k Hsettled Hshown Hrec w'. subst w'.
  destruct (recordResponse_inr _ _ _ _ _ _ _ Hrec) as (_ & Hresp & Hacts & _).
  assert (Hs' : Store.apply (Session.server w) (Store.OpRespond a m false now)
                = s') by (cbn [Store.apply]; rewrite Hrec; reflexivity).
  assert (Hlook : Store.responses s' !! (a, m) = Some (false, now))
    by (rewrite Hresp; apply lookup_insert_eq).
  assert (Hnot : Session.holdsAccepted a m s' = false)
    by (unfold Session.holdsAccepted; rewrite Hlook; reflexivity).
  cbn [Session.run fold_left Session.step Session.server Session.client].
  rewrite Hs', settle_after_message by exact Hsettled.
  assert (Hview : view (step (Session.client w)
                             (SocketMessage (changeEvent g a k)))
                  = view (Session.client w)).
  { destruct (step_message_cases (Session.client w) (changeEvent g a k))
      as [-> | ->]; [reflexivity | apply view_invalidateQueriesOn]. }
  split; [reflexivity|]. split; [exact Hlook|]. split; [exact Hnot|].
  split.
  { unfold Session.settled in *.
    destruct (step_message_cases (Session.client w) (changeEvent g a k))
      as [-> | ->]; [exact Hsettled|].
    cbn [invalidateQueriesOn log set_cache pg_id pg_cache].
    rewrite settled_invalidate_live. exact Hsettled. }
  split; [exact Hview|].
  split; [unfold Session.onSchedule; rewrite Hview; exact Hshown|].
  intros acts Hacts'.
  cbn [Session.step Session.server Session.client]. rewrite ?Hs', Hrec.
  cbn [Session.answer].
  split.
  { intros Hu. unfold view, getMySchedule.
    cbn [TripPage.activities TripPage.user]. rewrite Hacts'.
    destruct (pg_user (Session.client w)); [reflexivity | congruence]. }
  split; [reflexivity|].
  assert (Hfresh :
            activities
              (Session.settle g m s'
                 (step (Session.client w)
                       (Decline a (Response true (Some (JS.JObject []))))))
            = Some (Store.activitiesFor g m s')).
  { unfold activities in *.
    change (pg_id (Session.settle g m s'
                     (step (Session.client w)
                           (Decline a (Response true (Some (JS.JObject [])))))))
      with (pg_id (Session.client w)).
    change (pg_cache (Session.settle g m s'
                        (step (Session.client w)
                              (Decline a (Response true (Some (JS.JObject [])))))))
      with (map (Session.refetch g m s' (pg_id (Session.client w)))
                (invalidateQueries (activitiesKey (pg_id (Session.client w)))
                                   (pg_cache (Session.client w)))).
    destruct (getQueryData (activitiesKey (pg_id (Session.client w)))
                           (pg_cache (Session.client w))) as [d|] eqn:E;
      [|discriminate].
    rewrite (getQueryData_refetched g m s' _ _ d E). reflexivity. }
  split; [exact Hfresh|].
  intros Hwf.
  assert (Hwf' : Store.wellFormed s')
    by exact (wellFormed_respond _ _ _ _ _ _ _ Hwf Hrec).
  assert (Hfind : exists act, Store.findActivity a s' = Some act).
  { unfold Store.recordResponse in Hrec. unfold Store.findActivity in *.
    rewrite Hacts.
    destruct (find _ (Store.activities (Session.server w))) as [act|];
      [eauto | discriminate]. }
  destruct Hfind as [act Hfind].
  destruct (fresh_onSchedule g m s' _ a act Hwf' Hfind Hfresh) as [Hsound _].
  match goal with
  | |- ?shown = false => destruct shown eqn:E; [|reflexivity]
  end.
  rewrite (Hsound eq_refl) in Hnot. discriminate Hnot.
Qed.

(** C3 at the sample: X's page shows the sushi dinner, X declines it from
    a second session and the [declined] event reaches the page; the page
    still shows the dinner. *)
Lemma C3_witness :
  Session.onSchedule 1
    (Session.client
       (Session.run 5 "member-x"
          (Session.mkWorld Sample.server (Sample.pageOf "member-x" Sample.server))
          Sample.remoteDecline))
  = true.
Proof.
  assert (Hrec : Store.recordResponse 1 "member-x" false 130 Sample.server
                 = inr (Store.mkResponse 1 "member-x" false 130,
                        Store.apply Sample.server Sample.declineX))
    by (vm_compute; reflexivity).
  exact (proj1 (proj2 (proj2 (proj2 (proj2 (proj2
           (C3_remote_change_leaves_schedule_stale 5 "member-x"
              (Session.mkWorld Sample.server
                               (Sample.pageOf "member-x" Sample.server))
              1 130 _ _ declined eq_refl eq_refl Hrec))))))).
Defined.

(** The counts of the claim at the sample.  X and Y both accepted the
    sushi dinner and both pages show it; X declines from a second session
    and the [declined] event reaches both pages.  One Response is accepted
    and two pages show the dinner.  Had X declined on the page itself, one
    page would show it. *)
Example remote_decline_counts :
  let after := Store.apply Sample.server Sample.declineX in
  let pageX := Session.client
                 (Session.run 5 "member-x"
                    (Session.mkWorld Sample.server
                       (Sample.pageOf "member-x" Sample.server))
                    Sample.remoteDecline) in
  let pageY := Session.client
                 (Session.run 5 "member-y"
                    (Session.mkWorld Sample.server
                       (Sample.pageOf "member-y" Sample.server))
                    Sample.remoteDecline) in
  let pageX' := Session.client
                  (Session.step 5 "member-x"
                     (Session.mkWorld Sample.server
                        (Sample.pageOf "member-x" Sample.server))
                     (Session.Respond 1 false 130)) in
  Store.acceptedCount 1 Sample.server = 2%nat
  /\ Session.scheduleCount 1 [ Sample.pageOf "member-x" Sample.server;
                              Sample.pageOf "member-y" Sample.server ] = 2%nat
  /\ Store.acceptedCount 1 after = 1%nat
  /\ Session.scheduleCount 1 [pageX; pageY] = 2%nat
  /\ Session.holdsAccepted 1 "member-x" after = false
  /\ since (Sample.pageOf "member-x" Sample.server) pageX
     = [InvalidateQueries ["/api/trips"; "5"; "activities"]]
  /\ Session.scheduleCount 1 [pageX'; pageY] = 1%nat.
Proof. vm_compute. repeat split. Qed.

(** ** Proposing a discovered activity *)

Lemma parseFloat_examples :
  JS.parseFloat "Free" = JS.NaN
  /\ JS.parseFloat "$45" = JS.NaN
  /\ JS.parseFloat "" = JS.NaN
  /\ JS.parseFloat "45.50" = JS.Finite false (JS.mkDecimal 4550 (-2))
  /\ JS.parseFloat "  12 USD" = JS.Finite false (JS.mkDecimal 12 0)
  /\ JS.parseFloat "-1.5e3abc" = JS.Finite true (JS.mkDecimal 15 2)
  /\ JS.parseFloat "Infinity" = JS.Infinity false
  /\ JS.parseFloat "1e400" = JS.Infinity false.
Proof. repeat split. Qed.

(** The [cost] member of the request body, by cases on the price. *)
Lemma proposeRequest_cost (LocalTZA : Z -> bool -> Z) (tripId : string) (now : Z)
    (activity : Discover.Activity) :
  Discover.bodyMember "cost" (Discover.proposeRequest LocalTZA tripId now activity)
  = if JS.truthy_string (Discover.price activity)
    then JS.stringify (JS.VNumber (JS.parseFloat (Discover.price activity)))
    else Some JS.JNull.
Proof.
  unfold Discover.bodyMember, Discover.proposeRequest, Discover.proposal,
    JS.stringify_object.
  cbn [req_body JS.stringify].
  destruct (JS.truthy_string (Discover.price activity));
    [destruct (JS.parseFloat (Discover.price activity))|]; reflexivity.
Qed.

Lemma proposeRequest_fixed_members (LocalTZA : Z -> bool -> Z) (tripId : string)
    (now : Z) (activity : Discover.Activity) :
  Discover.bodyMember "startTime"
    (Discover.proposeRequest LocalTZA tripId now activity)
  = Some (JS.JIsoString (Discover.startDateTime LocalTZA now))
  /\ Discover.bodyMember "endTime"
       (Discover.proposeRequest LocalTZA tripId now activity)
     = Some JS.JNull
  /\ Discover.bodyMember "maxCapacity"
       (Discover.proposeRequest LocalTZA tripId now activity)
     = Some (JS.JNumber false (JS.mkDecimal 10 0)).
Proof.
  unfold Discover.bodyMember, Discover.proposeRequest, Discover.proposal,
    JS.stringify_object.
  cbn [req_body JS.stringify].
  destruct (JS.truthy_string (Discover.price activity));
    [destruct (JS.parseFloat (Discover.price activity))|];
    repeat split.
Qed.

(** The start time is noon, local time, of the day the handler read off
    the UTC text of the current instant. *)
Lemma startDateTime_noon (LocalTZA : Z -> bool -> Z) (now : Z) :
  Discover.startDateTime LocalTZA now
  = Discover.UTC LocalTZA
      (Discover.Day now * Discover.msPerDay + 12 * Discover.msPerHour).
Proof.
  unfold Discover.startDateTime, Discover.dateOfText, Discover.isoDatePart.
  cbn [Discover.dt_day Discover.dt_hours Discover.dt_minutes fst snd].
  f_equal. lia.
Qed.

(** C8 (as amended). Whatever the discovered activity and the outcome of
    the request, the handler first submits the creation request.  The
    start time of its body is fixed by the current instant alone, whatever
    the activity: it is 12:00 local time of some day, and that day is the
    current date whenever the current instant falls on the same calendar
    date in local time as in UTC.  The end time is [null] and
    [maxCapacity] is 10.  In the object handed to [JSON.stringify] the cost
    is [parseFloat] of the price when the price is not empty and [null]
    otherwise; in the body that is sent, a cost that is NaN or infinite is
    written [null] and a zero loses its sign, so only a finite
    [parseFloat] reaches the server as a number. *)
Theorem C8_proposal_request :
  forall (LocalTZA : Z -> bool -> Z)
         (isUnauthorizedError : Discover.Thrown -> bool)
         (tripId : string) (now : Z) (activity : Discover.Activity)
         (r : FetchResult),
    let request := Discover.proposeRequest LocalTZA tripId now activity in
    (exists rest,
        Discover.handleProposeActivity LocalTZA isUnauthorizedError
                                       tripId now activity r
        = Discover.Fetch request :: rest)
    /\ (forall other : Discover.Activity,
          Discover.bodyMember "startTime"
            (Discover.proposeRequest LocalTZA tripId now other)
          = Discover.bodyMember "startTime" request)
    /\ (exists day,
          Discover.bodyMember "startTime" request
          = Some (JS.JIsoString
                    (Discover.UTC LocalTZA
                       (day * Discover.msPerDay + 12 * Discover.msPerHour))))
    /\ (Discover.Day (Discover.LocalTime LocalTZA now) = Discover.Day now ->
        Discover.bodyMember "startTime" request
        = Some (JS.JIsoString
                  (Discover.UTC LocalTZA
                     (Discover.Day (Discover.LocalTime LocalTZA now)
                      * Discover.msPerDay + 12 * Discover.msPerHour))))
    /\ Discover.bodyMember "endTime" request = Some JS.JNull
    /\ Discover.bodyMember "maxCapacity" request
       = Some (JS.JNumber false (JS.mkDecimal 10 0))
    /\ JS.prop "cost" (Discover.proposal LocalTZA tripId now activity)
       = (if JS.truthy_string (Discover.price activity)
          then JS.VNumber (JS.parseFloat (Discover.price activity))
          else JS.VNull)
    /\ Discover.bodyMember "cost" request
       = Some (if JS.truthy_string (Discover.price activity)
               then match JS.parseFloat (Discover.price activity) with
                    | JS.Finite neg d =>
                        JS.JNumber (neg && negb (JS.is_zero d)) d
                    | _ => JS.JNull
                    end
               else JS.JNull).
Proof.
  intros LocalTZA isUnauthorizedError tripId now activity r request.
  subst request.
  destruct (proposeRequest_fixed_members LocalTZA tripId now activity)
    as (Hs & He & Hm).
  split; [eexists; reflexivity|].
  split.
  { intros other.
    destruct (proposeRequest_fixed_members LocalTZA tripId now other)
      as (Hs' & _ & _).
    rewrite Hs, Hs'. reflexivity. }
  split.
  { exists (Discover.Day now). rewrite Hs, startDateTime_noon. reflexivity. }
  split.
  { intros Hday. rewrite Hs, startDateTime_noon, Hday. reflexivity. }
  split; [exact He|]. split; [exact Hm|]. split; [reflexivity|].
  rewrite proposeRequest_cost.
  destruct (JS.truthy_string (Discover.price activity)); [|reflexivity].
  destruct (JS.parseFloat (Discover.price activity)); reflexivity.
Qed.

(** C8 on a concrete clock: at 2025-08-01T10:30:00Z, two hours east of
    UTC, it is 1 August both in local time and in UTC, and the proposal is
    scheduled for 12:00 local time of 1 August, 2025-08-01T10:00:00Z. *)
Lemma C8_witness :
  Discover.bodyMember "startTime"
    (Discover.proposeRequest (fun _ _ => 2 * Discover.msPerHour) "5"
                             1754044200000 Sample.freeTour)
  = Some (JS.JIsoString 1754042400000).
Proof.
  exact (proj1 (proj2 (proj2 (proj2
           (C8_proposal_request (fun _ _ => 2 * Discover.msPerHour)
              (fun _ => false) "5" 1754044200000 Sample.freeTour
              NetworkError))))
         eq_refl).
Defined.

(** C8, the claim as stated, fails for an activity priced ["Free"]:
    [parseFloat] gives NaN, but the cost of the request that is sent is
    [null], the very cost of the same activity with an empty price. *)
Lemma C8_counterexample :
  JS.parseFloat (Discover.price Sample.freeTour) = JS.NaN
  /\ Discover.bodyMember "cost"
       (Discover.proposeRequest (fun _ _ => 0) "5" 1754042400000 Sample.freeTour)
     = Some JS.JNull
  /\ Discover.bodyMember "cost"
       (Discover.proposeRequest (fun _ _ => 0) "5" 1754042400000 Sample.freeTour)
     = Discover.bodyMember "cost"
         (Discover.proposeRequest (fun _ _ => 0) "5" 1754042400000
                                  Sample.unpricedTour).
Proof. repeat split. Qed.

(** A price of ["-0"]: [parseFloat] gives the negative zero, and the body
    that is sent holds the number [0]. *)
Example negative_zero_cost :
  JS.parseFloat "-0" = JS.Finite true (JS.mkDecimal 0 0)
  /\ JS.stringify (JS.VNumber (JS.parseFloat "-0"))
     = Some (JS.JNumber false (JS.mkDecimal 0 0)).
Proof. split; reflexivity. Qed.

(** Near midnight the day is not the current date.  The handler reads the
    day off the UTC text of the instant (under the comment "Today's date")
    and then takes it as a local date.  At 2025-08-01T22:30:00Z, two hours
    east of UTC, it is already 2 August, and the proposal is scheduled for
    noon of 1 August; at 2025-08-02T01:00:00Z, four hours west of UTC, it
    is still 1 August, 21:00, and the proposal is scheduled for noon of
    2 August. *)
Example startDateTime_example :
  Discover.startDateTime (fun _ _ => 2 * Discover.msPerHour) 1754087400000
  = 1754042400000
  /\ Discover.Day (Discover.LocalTime (fun _ _ => 2 * Discover.msPerHour)
                                      1754087400000)
     = Discover.Day 1754042400000 + 1
  /\ Discover.startDateTime (fun _ _ => - 4 * Discover.msPerHour) 1754096400000
     = 1754150400000
  /\ Discover.Day (Discover.LocalTime (fun _ _ => - 4 * Discover.msPerHour)
                                      1754096400000)
     = Discover.Day 1754150400000 - 1.
Proof. repeat split. Qed.
